(** * TransactionAnalyzer (index.js): a shallow embedding and its properties

    The class [TransactionAnalyzer] keeps one array, [this.transactions], and
    answers queries over it with [filter], [reduce], [find] and [map].  The
    array is a [list Transaction]; every method is a function of that list
    ([this]), and [addTransaction], the only method that writes, returns the
    new list.

    What the methods take from the JavaScript runtime is kept apart from the
    methods themselves:
    - numbers (the [+] and [/] of the reduces, [parseFloat], the coercion of
      a string in a comparison) are an interface, [JSNumber]; its instance
      is IEEE binary64, which is what the program runs on, with the two
      readers of numerals as parameters ([binary64_with]) and reference
      readers for ASCII strings ([binary64]);
    - [new Date(string)], the local-time getters and [toLocaleString] are an
      interface, [JSDate], with a reference instance for ISO date-only
      strings read in UTC with en-US month names. *)

From Stdlib Require Import ZArith NArith List String Ascii Bool Lia PeanoNat.
From Stdlib Require Import Floats Uint63 DecimalString Permutation.
Import ListNotations.

Set Implicit Arguments.

Local Open Scope string_scope.
Local Open Scope list_scope.

(** ** The records of transactions.json *)

Record Transaction : Type := mkTransaction {
  transaction_id : string;
  transaction_date : string;
  transaction_amount : string;
  transaction_type : string;
  transaction_description : string;
  merchant_name : string;
  card_type : string
}.

(** ** Runtime interfaces *)

(** JavaScript numbers, as far as the class uses them. *)
Class JSNumber (num : Type) : Type := {
  (** the literal [0] that starts every sum *)
  num_zero : num;
  (** [a + b] on two numbers *)
  num_add : num -> num -> num;
  (** [a / b] *)
  num_div : num -> num -> num;
  (** [a <= b]; false when either side is NaN *)
  num_le : num -> num -> bool;
  (** the number an array's [length] is *)
  num_of_length : nat -> num;
  (** [Number.isNaN] *)
  num_isNaN : num -> bool;
  (** the global [parseFloat], applied to a string *)
  parseFloat : string -> num;
  (** ToNumber of a string, the coercion [>=] and [<=] apply to it *)
  ToNumber : string -> num
}.

(** A [Date] object is its time value: milliseconds since the epoch, or NaN
    ([None], what prints as "Invalid Date"). *)
Definition DateObject : Type := option Z.

Class JSDate : Type := {
  (** the time value of [new Date(s)] for a string [s] *)
  Date_parse : string -> DateObject;
  (** [getFullYear()], [getMonth()] (0 for January) and [getDate()] of a
      valid time value, in the local time zone *)
  localFullYear : Z -> Z;
  localMonth : Z -> Z;
  localDate : Z -> Z;
  (** [toLocaleString('default', {month: 'long', year: 'numeric'})] *)
  toLocaleString_month_year : DateObject -> string
}.

(** ** Pieces of the language the methods rely on *)

Inductive JSError : Type := TypeError.

(** The outcome of a call: a value, or a thrown error. *)
Inductive completion (A : Type) : Type :=
| Normal (value : A)
| Throw (error : JSError).

Arguments Normal {A} value.
Arguments Throw {A} error.

(** [arr.reduce(f)] with no initial value: the first element starts the
    accumulator; on an empty array it throws a TypeError. *)
Definition reduce_no_init (A : Type) (f : A -> A -> A) (arr : list A) : completion A :=
  match arr with
  | [] => Throw TypeError
  | first :: rest => Normal (fold_left f rest first)
  end.

(** An object literal [{}] used as a table: its own properties in creation
    order.  The table is exact on ordinary keys.  A key naming a member of
    [Object.prototype] reads an inherited function before it is first
    written, so what is stored under it is not a count ("__proto__" stores
    nothing at all); that changes neither the entries of the other keys nor
    their order. *)
Definition JSObject (V : Type) : Type := list (string * V).

(** The names [{}] inherits from [Object.prototype]. *)
Definition Object_prototype_names : list string :=
  ["constructor"; "__proto__"; "hasOwnProperty"; "isPrototypeOf";
   "propertyIsEnumerable"; "toLocaleString"; "toString"; "valueOf";
   "__defineGetter__"; "__defineSetter__"; "__lookupGetter__"; "__lookupSetter__"].

Definition is_inherited_name (key : string) : bool :=
  existsb (String.eqb key) Object_prototype_names.

(** [obj[key]]: [None] is [undefined]. *)
Fixpoint obj_get (V : Type) (obj : JSObject V) (key : string) : option V :=
  match obj with
  | [] => None
  | (k, v) :: rest => if String.eqb k key then Some v else obj_get rest key
  end.

(** [obj[key] = v]: an existing property keeps its place, a new one is
    created after the others. *)
Fixpoint obj_set (V : Type) (obj : JSObject V) (key : string) (v : V) : JSObject V :=
  match obj with
  | [] => [(key, v)]
  | (k, w) :: rest =>
      if String.eqb k key then (k, v) :: rest else (k, w) :: obj_set rest key v
  end.

Definition digit_value (c : ascii) : option N :=
  let n := N_of_ascii c in
  if ((48 <=? n) && (n <=? 57))%N then Some (n - 48)%N else None.

(** The digits of [s] read as a decimal numeral, after [acc]. *)
Fixpoint digits_value (s : string) (acc : N) : option N :=
  match s with
  | EmptyString => Some acc
  | String c rest =>
      match digit_value c with
      | Some d => digits_value rest (acc * 10 + d)%N
      | None => None
      end
  end.

(** A property key is an array index when it is the canonical numeral of an
    integer below 2^32 - 1. *)
Definition array_index (key : string) : option N :=
  match key with
  | EmptyString => None
  | String c rest =>
      if (Ascii.eqb c "0" && negb (String.eqb rest ""))%bool then None
      else match digits_value key 0 with
           | Some n => if (n <? 4294967295)%N then Some n else None
           | None => None
           end
  end.

Definition is_array_index (key : string) : bool :=
  match array_index key with Some _ => true | None => false end.

(** A key that is neither an array index nor an inherited name: what a
    transaction type such as "debit" and a month label such as
    "January 2019" are. *)
Definition ordinary_key (key : string) : bool :=
  negb (is_array_index key) && negb (is_inherited_name key).

Fixpoint insert_index (entry : N * string) (sorted : list (N * string)) : list (N * string) :=
  match sorted with
  | [] => [entry]
  | e :: rest =>
      if (fst entry <=? fst e)%N then entry :: sorted else e :: insert_index entry rest
  end.

Definition index_keys (keys : list string) : list (N * string) :=
  fold_right
    (fun key acc =>
       match array_index key with
       | Some n => insert_index (n, key) acc
       | None => acc
       end)
    [] keys.

(** [Object.keys(obj)]: array-index keys in ascending numeric order, then
    the other string keys in creation order. *)
Definition Object_keys (V : Type) (obj : JSObject V) : list string :=
  map snd (index_keys (map fst obj))
  ++ filter (fun key => negb (is_array_index key)) (map fst obj).

(** [(v || 0) + 1] for a table of counts: [undefined] and [0] count as 0. *)
Definition or_zero (v : option nat) : nat :=
  match v with Some n => n | None => 0 end.

(** [a > b] on two table entries: [undefined] becomes NaN, and every
    comparison with NaN is false. *)
Definition js_gt (a b : option nat) : bool :=
  match a, b with
  | Some x, Some y => Nat.ltb y x
  | _, _ => false
  end.

(** [!arg] for an optional integer argument: true when it is omitted
    ([undefined] or [null], here [None]) or is 0. *)
Definition js_not (arg : option Z) : bool :=
  match arg with
  | None => true
  | Some z => Z.eqb z 0
  end.

(** [a === b] between the result of a getter (NaN on an invalid date, here
    [None]) and an integer. *)
Definition js_strict_eq (a : option Z) (b : option Z) : bool :=
  match a, b with
  | Some x, Some y => Z.eqb x y
  | _, _ => false
  end.

(** [a <= b] and [a < b] between two dates: the time values are compared,
    and a comparison with an invalid date is false. *)
Definition date_le (a b : DateObject) : bool :=
  match a, b with
  | Some x, Some y => Z.leb x y
  | _, _ => false
  end.

Definition date_lt (a b : DateObject) : bool :=
  match a, b with
  | Some x, Some y => Z.ltb x y
  | _, _ => false
  end.

(** [Array.from(new Set(arr))]: the distinct values in order of first
    occurrence. *)
Definition Set_from (arr : list string) : list string :=
  fold_left
    (fun seen x => if existsb (String.eqb x) seen then seen else seen ++ [x])
    arr [].

(** ** The class *)

Section TransactionAnalyzer.

Context {num : Type} {NUM : JSNumber num} {DATE : JSDate}.

(** [this.transactions]: the elements of the array, in order. *)
Definition Store : Type := list Transaction.

(** The constructor keeps the array it is given, and [getAllTransaction]
    hands that same array out: neither copies. *)
Definition constructor (transactions : list Transaction) : Store := transactions.

Definition addTransaction (transaction : Transaction) (this : Store) : Store :=
  this ++ [transaction].

Definition getAllTransaction (this : Store) : list Transaction := this.

Definition getUniqueTransactionType (this : Store) : list string :=
  Set_from (map transaction_type this).

(** The reducer [(total, t) => total + parseFloat(t.transaction_amount)]
    run from 0, which three methods share. *)
Definition sum_amounts (arr : list Transaction) : num :=
  fold_left (fun total t => num_add total (parseFloat (transaction_amount t))) arr num_zero.

Definition calculateTotalAmount (this : Store) : num := sum_amounts this.

Definition getFullYear (date : DateObject) : option Z := option_map localFullYear date.
Definition getMonth (date : DateObject) : option Z := option_map localMonth date.
Definition getDate (date : DateObject) : option Z := option_map localDate date.

Definition matches_date (year month day : option Z) (t : Transaction) : bool :=
  let date := Date_parse (transaction_date t) in
  (js_not year || js_strict_eq (getFullYear date) year)
  && (js_not month || js_strict_eq (option_map (Z.add 1) (getMonth date)) month)
  && (js_not day || js_strict_eq (getDate date) day).

Definition calculateTotalAmountByDate (year month day : option Z) (this : Store) : num :=
  sum_amounts (filter (matches_date year month day) this).

Definition getTransactionByType (type : string) (this : Store) : list Transaction :=
  filter (fun t => String.eqb (transaction_type t) type) this.

Definition getTransactionsInDateRange (startDate endDate : string) (this : Store)
  : list Transaction :=
  let start := Date_parse startDate in
  let end_ := Date_parse endDate in
  filter
    (fun t =>
       let date := Date_parse (transaction_date t) in
       date_le start date && date_le date end_)
    this.

Definition getTransactionsByMerchant (merchantName : string) (this : Store)
  : list Transaction :=
  filter (fun t => String.eqb (merchant_name t) merchantName) this.

Definition calculateAverageTransactionAmount (this : Store) : num :=
  let total := calculateTotalAmount this in
  num_div total (num_of_length (List.length this)).

Definition getTransactionsByAmountRange (minAmount maxAmount : num) (this : Store)
  : list Transaction :=
  filter
    (fun t =>
       num_le minAmount (ToNumber (transaction_amount t))
       && num_le (ToNumber (transaction_amount t)) maxAmount)
    this.

Definition calculateTotalDebitAmount (this : Store) : num :=
  sum_amounts (getTransactionByType "debit" this).

(** The label of a record's month: ["January 2019"] in en-US. *)
Definition month_label (t : Transaction) : string :=
  toLocaleString_month_year (Date_parse (transaction_date t)).

(** The reducer [acc[key] = (acc[key] || 0) + 1] run from [{}]. *)
Definition count_by (key : Transaction -> string) (arr : list Transaction) : JSObject nat :=
  fold_left (fun acc t => obj_set acc (key t) (or_zero (obj_get acc (key t)) + 1)) arr [].

(** [Object.keys(count).reduce((a, b) => count[a] > count[b] ? a : b)] *)
Definition most_counted (count : JSObject nat) : completion string :=
  reduce_no_init
    (fun a b => if js_gt (obj_get count a) (obj_get count b) then a else b)
    (Object_keys count).

Definition findMostTransactionsMonth (this : Store) : completion string :=
  most_counted (count_by month_label this).

Definition findMostDebitTransactionMonth (this : Store) : completion string :=
  most_counted (count_by month_label (getTransactionByType "debit" this)).

Definition mostTransactionTypes (this : Store) : string :=
  let count := count_by transaction_type this in
  if js_gt (obj_get count "debit") (obj_get count "credit") then "debit"
  else if js_gt (obj_get count "credit") (obj_get count "debit") then "credit"
  else "equal".

Definition getTransactionsBeforeDate (date : string) (this : Store) : list Transaction :=
  let end_ := Date_parse date in
  filter (fun t => date_lt (Date_parse (transaction_date t)) end_) this.

(** [find(...) || null]: a record is an object, hence truthy, so [null]
    ([None]) stands for "nothing found" only. *)
Definition findTransactionById (id : string) (this : Store) : option Transaction :=
  find (fun t => String.eqb (transaction_id t) id) this.

Definition mapTransactionDescriptions (this : Store) : list string :=
  map transaction_description this.

(** *** The methods as calls on one analyzer

    A call names a method with its arguments; [invoke] runs it on the
    analyzer's array and gives back the array as the call leaves it, with
    what the call returned. *)

Inductive Call : Type :=
| call_addTransaction (transaction : Transaction)
| call_getAllTransaction
| call_getUniqueTransactionType
| call_calculateTotalAmount
| call_calculateTotalAmountByDate (year month day : option Z)
| call_getTransactionByType (type : string)
| call_getTransactionsInDateRange (startDate endDate : string)
| call_getTransactionsByMerchant (merchantName : string)
| call_calculateAverageTransactionAmount
| call_getTransactionsByAmountRange (minAmount maxAmount : num)
| call_calculateTotalDebitAmount
| call_findMostTransactionsMonth
| call_findMostDebitTransactionMonth
| call_mostTransactionTypes
| call_getTransactionsBeforeDate (date : string)
| call_findTransactionById (id : string)
| call_mapTransactionDescriptions.

Inductive Value : Type :=
| v_undefined
| v_records (records : list Transaction)
| v_strings (strings : list string)
| v_number (n : num)
| v_string (s : string)
| v_record_or_null (found : option Transaction).

Definition is_addTransaction (c : Call) : bool :=
  match c with
  | call_addTransaction _ => true
  | _ => false
  end.

Definition returns (A : Type) (wrap : A -> Value) (this : Store) (result : A)
  : Store * completion Value :=
  (this, Normal (wrap result)).

Definition returns_or_throws (this : Store) (result : completion string)
  : Store * completion Value :=
  (this, match result with
         | Normal s => Normal (v_string s)
         | Throw e => Throw e
         end).

Definition invoke (c : Call) (this : Store) : Store * completion Value :=
  match c with
  | call_addTransaction t => (addTransaction t this, Normal v_undefined)
  | call_getAllTransaction => returns v_records this (getAllTransaction this)
  | call_getUniqueTransactionType => returns v_strings this (getUniqueTransactionType this)
  | call_calculateTotalAmount => returns v_number this (calculateTotalAmount this)
  | call_calculateTotalAmountByDate y m d =>
      returns v_number this (calculateTotalAmountByDate y m d this)
  | call_getTransactionByType type => returns v_records this (getTransactionByType type this)
  | call_getTransactionsInDateRange s e =>
      returns v_records this (getTransactionsInDateRange s e this)
  | call_getTransactionsByMerchant m =>
      returns v_records this (getTransactionsByMerchant m this)
  | call_calculateAverageTransactionAmount =>
      returns v_number this (calculateAverageTransactionAmount this)
  | call_getTransactionsByAmountRange lo hi =>
      returns v_records this (getTransactionsByAmountRange lo hi this)
  | call_calculateTotalDebitAmount => returns v_number this (calculateTotalDebitAmount this)
  | call_findMostTransactionsMonth => returns_or_throws this (findMostTransactionsMonth this)
  | call_findMostDebitTransactionMonth =>
      returns_or_throws this (findMostDebitTransactionMonth this)
  | call_mostTransactionTypes => returns v_string this (mostTransactionTypes this)
  | call_getTransactionsBeforeDate d => returns v_records this (getTransactionsBeforeDate d this)
  | call_findTransactionById id => returns v_record_or_null this (findTransactionById id this)
  | call_mapTransactionDescriptions =>
      returns v_strings this (mapTransactionDescriptions this)
  end.

(** A script: calls made one after the other on the same analyzer, up to
    the first one that throws. *)
Fixpoint run (calls : list Call) (this : Store) : Store :=
  match calls with
  | [] => this
  | c :: rest =>
      match invoke c this with
      | (store, Normal _) => run rest store
      | (store, Throw _) => store
      end
  end.

End TransactionAnalyzer.

(** ** Reference runtime: numbers

    Strings are taken to be ASCII: white space is the ASCII white space and
    line terminators. *)

(** *** Reading numerals *)

Definition is_space (c : ascii) : bool :=
  let n := N_of_ascii c in
  ((n =? 32) || ((9 <=? n) && (n <=? 13)))%N.

Fixpoint skip_spaces (s : string) : string :=
  match s with
  | String c rest => if is_space c then skip_spaces rest else s
  | EmptyString => s
  end.

(** [s] without [prefix] at its head, when it starts with it. *)
Fixpoint strip_prefix (prefix s : string) : option string :=
  match prefix with
  | EmptyString => Some s
  | String c prefix' =>
      match s with
      | String d rest => if Ascii.eqb c d then strip_prefix prefix' rest else None
      | EmptyString => None
      end
  end.

(** The digits at the head of [s], appended to the numeral [acc]: the value,
    how many digits were read, and what follows them. *)
Fixpoint scan_digits (s : string) (acc : N) (count : nat) : N * nat * string :=
  match s with
  | String c rest =>
      match digit_value c with
      | Some d => scan_digits rest (acc * 10 + d)%N (S count)
      | None => (acc, count, s)
      end
  | EmptyString => (acc, count, s)
  end.

(** A decimal literal as it is written: [Infinity], or digits (whole part
    and fraction as one integer, with the number of fraction digits) and a
    power of ten. *)
Inductive numeral : Type :=
| numeral_infinity (negative : bool)
| numeral_decimal (negative : bool) (digits : N) (scale : nat) (exponent : Z).

(** An exponent part, [e] or [E], an optional sign and at least one digit,
    at the head of [s]: its value and what follows; without one, 0 and [s]
    itself. *)
Definition scan_exponent (s : string) : Z * string :=
  match s with
  | String c rest =>
      if (Ascii.eqb c "e" || Ascii.eqb c "E")%bool then
        let '(negative, after_sign) :=
          match rest with
          | String "-" r => (true, r)
          | String "+" r => (false, r)
          | _ => (false, rest)
          end in
        let '(value, count, after) := scan_digits after_sign 0%N 0%nat in
        match count with
        | O => (0%Z, s)
        | S _ => (if negative then (- Z.of_N value)%Z else Z.of_N value, after)
        end
      else (0%Z, s)
  | EmptyString => (0%Z, s)
  end.

Definition scan_unsigned (negative : bool) (s : string) : option (numeral * string) :=
  match strip_prefix "Infinity" s with
  | Some rest => Some (numeral_infinity negative, rest)
  | None =>
      let '(whole, n_whole, after_whole) := scan_digits s 0%N 0%nat in
      match after_whole with
      | String "." fraction =>
          let '(all, n_fraction, after_fraction) := scan_digits fraction whole 0%nat in
          match (n_whole + n_fraction)%nat with
          | O => None
          | S _ =>
              let '(exponent, rest) := scan_exponent after_fraction in
              Some (numeral_decimal negative all n_fraction exponent, rest)
          end
      | _ =>
          match n_whole with
          | O => None
          | S _ =>
              let '(exponent, rest) := scan_exponent after_whole in
              Some (numeral_decimal negative whole 0 exponent, rest)
          end
      end
  end.

(** The longest decimal literal at the head of [s] (an optional sign, then
    [Infinity] or digits with an optional point and an optional exponent),
    and what follows it. *)
Definition scan_decimal (s : string) : option (numeral * string) :=
  match s with
  | String "-" rest => scan_unsigned true rest
  | String "+" rest => scan_unsigned false rest
  | _ => scan_unsigned false s
  end.

Definition digit_in_base (base : N) (c : ascii) : option N :=
  let n := N_of_ascii c in
  let value :=
    if ((48 <=? n) && (n <=? 57))%N then Some (n - 48)%N
    else if ((97 <=? n) && (n <=? 102))%N then Some (n - 87)%N
    else if ((65 <=? n) && (n <=? 70))%N then Some (n - 55)%N
    else None in
  match value with
  | Some v => if (v <? base)%N then Some v else None
  | None => None
  end.

Fixpoint scan_in_base (base : N) (s : string) (acc : N) (count : nat) : N * nat * string :=
  match s with
  | String c rest =>
      match digit_in_base base c with
      | Some d => scan_in_base base rest (acc * base + d)%N (S count)
      | None => (acc, count, s)
      end
  | EmptyString => (acc, count, s)
  end.

(** A hexadecimal, octal or binary integer literal ([0x], [0o], [0b], in
    either case, and at least one digit) at the head of [s]. *)
Definition scan_non_decimal (s : string) : option (N * string) :=
  match s with
  | String "0" (String c rest) =>
      let base :=
        if (Ascii.eqb c "x" || Ascii.eqb c "X")%bool then Some 16%N
        else if (Ascii.eqb c "o" || Ascii.eqb c "O")%bool then Some 8%N
        else if (Ascii.eqb c "b" || Ascii.eqb c "B")%bool then Some 2%N
        else None in
      match base with
      | Some b =>
          let '(value, count, after) := scan_in_base b rest 0%N 0%nat in
          match count with
          | O => None
          | S _ => Some (value, after)
          end
      | None => None
      end
  | _ => None
  end.

(** *** IEEE binary64, the numbers of the program *)

Definition float_of_N (n : N) : float := PrimFloat.of_uint63 (Uint63.of_Z (Z.of_N n)).

(** The double of a whole number; exact below 2^53. *)
Definition float_of_Z (n : Z) : float :=
  if (n <? 0)%Z then PrimFloat.opp (float_of_N (Z.to_N (- n))) else float_of_N (Z.to_N n).

(** The double nearest to a ratio of two integers of any size, ties to
    even: one division of the binary64 specification, which rounds once. *)
Definition float_of_ratio (negative : bool) (numerator : N) (denominator : positive)
  : float :=
  match numerator with
  | N0 => if negative then PrimFloat.neg_zero else PrimFloat.zero
  | Npos n =>
      SF2Prim (SFdiv prec emax (S754_finite negative n 0) (S754_finite false denominator 0))
  end.

(** The double of a decimal literal, digits * 10^(exponent - scale).  A
    value of 10^310 or more is infinite and one below 10^-330 is zero, so
    these are not computed through the powers of ten. *)
Definition float_of_numeral (x : numeral) : float :=
  match x with
  | numeral_infinity negative =>
      if negative then PrimFloat.neg_infinity else PrimFloat.infinity
  | numeral_decimal negative digits scale exponent =>
      let e := (exponent - Z.of_nat scale)%Z in
      let magnitude := (e + Z.of_nat (Decimal.nb_digits (N.to_uint digits)))%Z in
      if (digits =? 0)%N then (if negative then PrimFloat.neg_zero else PrimFloat.zero)
      else if (310 <? magnitude)%Z
           then (if negative then PrimFloat.neg_infinity else PrimFloat.infinity)
      else if (magnitude <? -330)%Z
           then (if negative then PrimFloat.neg_zero else PrimFloat.zero)
      else if (0 <=? e)%Z then float_of_ratio negative (digits * 10 ^ Z.to_N e) 1
      else float_of_ratio negative digits (Z.to_pos (10 ^ (- e)))
  end.

(** [parseFloat]: leading white space is skipped, the longest decimal
    literal is read and what follows it is ignored; NaN when there is no
    literal. *)
Definition float_parseFloat (s : string) : float :=
  match scan_decimal (skip_spaces s) with
  | Some (x, _) => float_of_numeral x
  | None => PrimFloat.nan
  end.

(** ToNumber of a string: white space is trimmed at both ends; the empty
    string is 0; otherwise the whole of what is left is a decimal literal or
    an unsigned hexadecimal, octal or binary integer, or the result is NaN. *)
Definition float_ToNumber (s : string) : float :=
  match skip_spaces s with
  | EmptyString => PrimFloat.zero
  | trimmed =>
      match scan_non_decimal trimmed with
      | Some (value, rest) =>
          match skip_spaces rest with
          | EmptyString => float_of_ratio false value 1
          | _ => PrimFloat.nan
          end
      | None =>
          match scan_decimal trimmed with
          | Some (x, rest) =>
              match skip_spaces rest with
              | EmptyString => float_of_numeral x
              | _ => PrimFloat.nan
              end
          | None => PrimFloat.nan
          end
      end
  end.

(** binary64 arithmetic with the two readers of numerals as parameters:
    what holds for every [parse] and [coerce] holds for the runtime's own
    [parseFloat] and ToNumber. *)
Definition binary64_with (parse coerce : string -> float) : JSNumber float := {|
  num_zero := PrimFloat.zero;
  num_add := PrimFloat.add;
  num_div := PrimFloat.div;
  num_le := PrimFloat.leb;
  num_of_length := fun n => float_of_N (N.of_nat n);
  num_isNaN := PrimFloat.is_nan;
  parseFloat := parse;
  ToNumber := coerce
|}.

#[export] Instance binary64 : JSNumber float :=
  binary64_with float_parseFloat float_ToNumber.

(** ** Reference runtime: dates

    ISO date-only strings ("2019-01-01"), which [new Date] reads as midnight
    UTC, with a month from 01 to 12 and a day from 01 to 31, a day past the
    end of its month running into the next month; the local time zone is
    UTC and the default locale en-US.  Date-times and the other forms
    [new Date] reads are invalid dates here. *)

Local Open Scope Z_scope.

Definition ms_per_day : Z := 86400000.

(** Days from 1970-01-01 to the civil date [y]-[m]-[d] (proleptic
    Gregorian calendar). *)
Definition days_from_civil (y m d : Z) : Z :=
  let y' := if m <=? 2 then y - 1 else y in
  let era := y' / 400 in
  let yoe := y' - era * 400 in
  let doy := (153 * (if m >? 2 then m - 3 else m + 9) + 2) / 5 + d - 1 in
  let doe := yoe * 365 + yoe / 4 - yoe / 100 + doy in
  era * 146097 + doe - 719468.

(** The civil date (year, month 1..12, day) of a day number. *)
Definition civil_from_days (days : Z) : Z * Z * Z :=
  let z := days + 719468 in
  let era := z / 146097 in
  let doe := z - era * 146097 in
  let yoe := (doe - doe / 1460 + doe / 36524 - doe / 146096) / 365 in
  let doy := doe - (365 * yoe + yoe / 4 - yoe / 100) in
  let mp := (5 * doy + 2) / 153 in
  let d := doy - (153 * mp + 2) / 5 + 1 in
  let m := if mp <? 10 then mp + 3 else mp - 9 in
  ((yoe + era * 400) + (if m <=? 2 then 1 else 0), m, d).

(** A field of exactly [width] digits at the head of [s], and the rest. *)
Fixpoint fixed_digits (width : nat) (s : string) (acc : N) : option (N * string) :=
  match width with
  | O => Some (acc, s)
  | S w =>
      match s with
      | String c rest =>
          match digit_value c with
          | Some d => fixed_digits w rest (acc * 10 + d)%N
          | None => None
          end
      | EmptyString => None
      end
  end.

Definition iso_date (s : string) : option (Z * Z * Z) :=
  match fixed_digits 4 s 0%N with
  | Some (y, String "-" s1) =>
      match fixed_digits 2 s1 0%N with
      | Some (m, String "-" s2) =>
          match fixed_digits 2 s2 0%N with
          | Some (d, EmptyString) => Some (Z.of_N y, Z.of_N m, Z.of_N d)
          | _ => None
          end
      | _ => None
      end
  | _ => None
  end.

Definition iso_Date_parse (s : string) : DateObject :=
  match iso_date s with
  | Some (y, m, d) =>
      if (1 <=? m) && (m <=? 12) && (1 <=? d) && (d <=? 31)
      then Some (days_from_civil y m d * ms_per_day)
      else None
  | None => None
  end.

Definition utc_civil (ms : Z) : Z * Z * Z := civil_from_days (ms / ms_per_day).

Definition utc_FullYear (ms : Z) : Z := fst (fst (utc_civil ms)).
Definition utc_Month (ms : Z) : Z := snd (fst (utc_civil ms)) - 1.
Definition utc_Date (ms : Z) : Z := snd (utc_civil ms).

Definition en_month_name (month0 : Z) : string :=
  nth (Z.to_nat month0)
    ["January"; "February"; "March"; "April"; "May"; "June"; "July";
     "August"; "September"; "October"; "November"; "December"]%string
    ""%string.

Definition en_month_year (date : DateObject) : string :=
  match date with
  | Some ms =>
      (en_month_name (utc_Month ms) ++ " "
       ++ NilZero.string_of_int (Z.to_int (utc_FullYear ms)))%string
  | None => "Invalid Date"%string
  end.

#[export] Instance iso_utc_en : JSDate := {
  Date_parse := iso_Date_parse;
  localFullYear := utc_FullYear;
  localMonth := utc_Month;
  localDate := utc_Date;
  toLocaleString_month_year := en_month_year
}.

Local Close Scope Z_scope.

(** ** Sample records *)

Definition record (id date amount type : string) : Transaction :=
  mkTransaction id date amount type "" "" "".

Definition credit_only : list Transaction :=
  [record "1" "2019-01-02" "50" "credit"].

Definition two_months : list Transaction :=
  [record "1" "2019-01-01" "100" "debit"; record "2" "2019-02-01" "50" "credit"].

Definition three_amounts : list Transaction :=
  [record "1" "2019-01-01" "0.1" "debit";
   record "2" "2019-01-02" "0.2" "credit";
   record "3" "2019-01-03" "0.3" "credit"].

Definition bad_date_record : Transaction := record "2" "not a date" "50" "credit".

Definition with_bad_date : list Transaction :=
  [record "1" "2019-01-01" "100" "debit";
   bad_date_record;
   record "3" "2019-01-02" "25" "credit"].

(** ** Vocabulary of the properties *)

(** How many times [key] occurs in [keys]. *)
Definition occurrences (key : string) (keys : list string) : nat :=
  count_occ string_dec keys key.

(** The distinct values of a list, in order of first occurrence. *)
Fixpoint first_seen (keys : list string) : list string :=
  match keys with
  | [] => []
  | k :: rest => k :: filter (fun k' => negb (String.eqb k k')) (first_seen rest)
  end.

(** [winner] has the highest count among [labels], and among the labels
    with that count it is the one seen first. *)
Definition first_seen_wins_ties (labels : list string) (winner : string) : Prop :=
  exists before after,
    first_seen labels = before ++ winner :: after
    /\ (forall l, In l before -> occurrences l labels < occurrences winner labels)
    /\ (forall l, In l after -> occurrences l labels <= occurrences winner labels).

(** [winner] has the highest count among [labels], and among the labels
    with that count it is the one seen last. *)
Definition last_seen_wins_ties (labels : list string) (winner : string) : Prop :=
  exists before after,
    first_seen labels = before ++ winner :: after
    /\ (forall l, In l before -> occurrences l labels <= occurrences winner labels)
    /\ (forall l, In l after -> occurrences l labels < occurrences winner labels).

(** The record's date is valid and agrees with every component that was
    supplied: an argument that is omitted, or 0, constrains nothing; the
    month argument counts from 1, where the runtime's month counts from 0. *)
Definition date_matches {DATE : JSDate} (year month day : option Z) (t : Transaction) : Prop :=
  (forall y, year = Some y -> y <> 0%Z ->
     exists ms, Date_parse (transaction_date t) = Some ms /\ localFullYear ms = y)
  /\ (forall m, month = Some m -> m <> 0%Z ->
        exists ms, Date_parse (transaction_date t) = Some ms /\ localMonth ms = (m - 1)%Z)
  /\ (forall d, day = Some d -> d <> 0%Z ->
        exists ms, Date_parse (transaction_date t) = Some ms /\ localDate ms = d).

(** The records whose type is not "debit". *)
Definition non_debit (this : list Transaction) : list Transaction :=
  filter (fun t => negb (String.eqb (transaction_type t) "debit")) this.

Definition scenario : list Transaction :=
  [record "1" "2019-01-01" "100" "debit"; record "2" "2019-01-02" "50" "credit"].

(** [sub] is [full] with some elements left out: nothing added, nothing
    repeated, nothing moved. *)
Inductive subsequence (A : Type) : list A -> list A -> Prop :=
| subsequence_nil : subsequence [] []
| subsequence_keep (x : A) (sub full : list A) :
    subsequence sub full -> subsequence (x :: sub) (x :: full)
| subsequence_drop (x : A) (sub full : list A) :
    subsequence sub full -> subsequence sub (x :: full).

(** The record's [transaction_date] parses. *)
Definition has_valid_date {DATE : JSDate} (t : Transaction) : bool :=
  match Date_parse (transaction_date t) with
  | Some _ => true
  | None => false
  end.

(** ** The script at the end of index.js

    The file ends with a script: it builds one analyzer on the parsed
    content of transactions.json, logs the result of sixteen queries, adds
    [newTransaction] and logs the array again.  Reading the file and
    printing are left out; the script is its calls, in order, and its log
    the values they returned. *)

Definition newTransaction : Transaction :=
  mkTransaction "6" "2022-05-25" "150.00" "debit" "Payment for dinner" "Restaurant"
    "MasterCard".

Definition script_calls : list (@Call float) :=
  [call_getUniqueTransactionType;
   call_calculateTotalAmount;
   call_calculateAverageTransactionAmount;
   call_getTransactionsInDateRange "2019-01-01" "2019-01-02";
   call_getTransactionsByMerchant "SuperMart";
   call_getAllTransaction;
   call_getTransactionByType "debit";
   call_getTransactionsBeforeDate "2019-01-01";
   call_findTransactionById "12345";
   call_findMostTransactionsMonth;
   call_findMostDebitTransactionMonth;
   call_mostTransactionTypes;
   call_mapTransactionDescriptions;
   call_calculateTotalDebitAmount;
   call_getTransactionsByAmountRange (PrimFloat.of_uint63 50) (PrimFloat.of_uint63 200);
   call_calculateTotalAmountByDate (Some 2019%Z) (Some 1%Z) (Some 1%Z);
   call_addTransaction newTransaction;
   call_getAllTransaction].

(** The calls run in order on one analyzer, each returned value appended to
    the log; an uncaught error ends the run there. *)
Fixpoint run_logging {DATE : JSDate} (calls : list (@Call float)) (this : Store)
  (log : list (@Value float)) : Store * completion (list (@Value float)) :=
  match calls with
  | [] => (this, Normal log)
  | c :: rest =>
      match invoke c this with
      | (store, Normal v) => run_logging rest store (log ++ [v])
      | (store, Throw e) => (store, Throw e)
      end
  end.

Definition script {DATE : JSDate} (transactions : list Transaction)
  : Store * completion (list (@Value float)) :=
  run_logging script_calls (constructor transactions) [].

(** Debits in January and March 2019, two credits in February. *)
Definition debits_and_credits : list Transaction :=
  [record "1" "2019-01-10" "10" "debit";
   record "2" "2019-02-10" "20" "credit";
   record "3" "2019-02-11" "30" "credit";
   record "4" "2019-03-10" "40" "debit"].

(** The records [mostTransactionTypes] compares. *)
Definition debit_or_credit (t : Transaction) : bool :=
  String.eqb (transaction_type t) "debit" || String.eqb (transaction_type t) "credit".

(** ** Whole numbers on binary64 *)

(** [p] followed by [k] binary zeros: p * 2^k. *)
Definition shl (p : positive) (k : nat) : positive := Nat.iter k xO p.

(** The binary64 form of a whole number with at most 53 binary digits:
    the digits moved up to fill the 53 bits of the mantissa. *)
Definition canonical (s : bool) (p : positive) : spec_float :=
  S754_finite s (shl p (53 - Pos.to_nat (digits2_pos p))) (Z.pos (digits2_pos p) - 53).

Definition SF_of_Z (n : Z) : spec_float :=
  match n with
  | Z0 => S754_zero false
  | Zpos p => canonical false p
  | Zneg p => canonical true p
  end.

(** For records whose amounts are the whole numbers [units t]: their sum,
    and the sum of their absolute values, which bounds every partial sum. *)
Definition sum_units (units : Transaction -> Z) (arr : list Transaction) : Z :=
  fold_right (fun t acc => (units t + acc)%Z) 0%Z arr.

Definition total_magnitude (units : Transaction -> Z) (arr : list Transaction) : Z :=
  fold_right (fun t acc => (Z.abs (units t) + acc)%Z) 0%Z arr.

(** The amounts of [scenario], 100 and 50. *)
Definition scenario_units (t : Transaction) : Z :=
  if String.eqb (transaction_id t) "1" then 100%Z else 50%Z.

(** * Properties *)

(** ** Tables of counts *)

Lemma obj_get_set_same (V : Type) (obj : JSObject V) (key : string) (v : V) :
  obj_get (obj_set obj key v) key = Some v.
Proof.
  induction obj as [|[k w] rest IH]; simpl.
  - now rewrite String.eqb_refl.
  - destruct (String.eqb k key) eqn:E; simpl; rewrite E; auto.
Qed.

Lemma obj_get_set_other (V : Type) (obj : JSObject V) (key other : string) (v : V) :
  key <> other -> obj_get (obj_set obj key v) other = obj_get obj other.
Proof.
  intros Hne. induction obj as [|[k w] rest IH]; simpl.
  - apply String.eqb_neq in Hne. now rewrite Hne.
  - destruct (String.eqb k key) eqn:E; simpl.
    + apply String.eqb_eq in E. subst k.
      apply String.eqb_neq in Hne. now rewrite Hne.
    + destruct (String.eqb k other); auto.
Qed.

(** After the counting reduce, the entry of a key is the number of records
    with that key added to what the entry was, and is left as it was
    ([undefined] included) when no record has the key. *)
Lemma count_fold_get (key : Transaction -> string) (arr : list Transaction) :
  forall (acc : JSObject nat) (k : string),
    obj_get
      (fold_left (fun acc t => obj_set acc (key t) (or_zero (obj_get acc (key t)) + 1)) arr acc)
      k
    = match occurrences k (map key arr) with
      | O => obj_get acc k
      | S n => Some (or_zero (obj_get acc k) + S n)
      end.
Proof.
  unfold occurrences.
  induction arr as [|t arr IH]; intros acc k; simpl; [reflexivity|].
  rewrite IH. destruct (string_dec (key t) k) as [E|E].
  - subst k. rewrite obj_get_set_same. simpl.
    destruct (count_occ string_dec (map key arr) (key t)); f_equal; lia.
  - rewrite obj_get_set_other by assumption. reflexivity.
Qed.

Lemma count_by_get (key : Transaction -> string) (arr : list Transaction) (k : string) :
  obj_get (count_by key arr) k
  = match occurrences k (map key arr) with
    | O => None
    | S n => Some (S n)
    end.
Proof.
  unfold count_by. rewrite count_fold_get. simpl.
  destruct (occurrences k (map key arr)); reflexivity.
Qed.

(** What [mostTransactionTypes] returns, from the two counts: a side wins
    only when the other side has at least one record. *)
Lemma mostTransactionTypes_by_counts (this : Store) :
  let debit := occurrences "debit" (map transaction_type this) in
  let credit := occurrences "credit" (map transaction_type this) in
  mostTransactionTypes this
  = if ((0 <? credit) && (credit <? debit))%nat then "debit"
    else if ((0 <? debit) && (debit <? credit))%nat then "credit"
    else "equal".
Proof.
  intros debit credit. unfold mostTransactionTypes.
  rewrite !count_by_get. fold debit credit.
  destruct debit as [|d], credit as [|c]; reflexivity.
Qed.

(** C1 (the failing input): on a store holding one "credit" record and no
    "debit" record the credit count, 1, is strictly greater than the debit
    count, 0, and [mostTransactionTypes] returns "equal" where the claim and
    the method's own documentation say "credit": [count.debit] is
    [undefined], and both comparisons with it are false.  So it is on every
    store that lacks one of the two types. *)
Theorem mostTransactionTypes_credit_only :
  occurrences "credit" (map transaction_type credit_only) = 1
  /\ occurrences "debit" (map transaction_type credit_only) = 0
  /\ obj_get (count_by transaction_type credit_only) "debit" = None
  /\ mostTransactionTypes credit_only = "equal"
  /\ (forall this : Store,
         occurrences "debit" (map transaction_type this) = 0
         \/ occurrences "credit" (map transaction_type this) = 0 ->
         mostTransactionTypes this = "equal").
Proof.
  repeat split.
  intros this Hnone. rewrite mostTransactionTypes_by_counts.
  destruct Hnone as [H|H]; rewrite H; simpl.
  - now rewrite andb_false_r.
  - destruct (occurrences "debit" (map transaction_type this)); reflexivity.
Qed.

(** ** Keys in creation order *)

Lemma filter_twice (A : Type) (f g h : A -> bool) (l : list A) :
  (forall x, g x && f x = h x) -> filter f (filter g l) = filter h l.
Proof.
  intros Hfg. induction l as [|x l IH]; simpl; [reflexivity|].
  specialize (Hfg x). destruct (g x), (h x); simpl in *;
    try rewrite Hfg; try rewrite IH; congruence.
Qed.

Lemma filter_all (A : Type) (f : A -> bool) (l : list A) :
  (forall x, In x l -> f x = true) -> filter f l = l.
Proof.
  induction l as [|x l IH]; simpl; intros H; [reflexivity|].
  rewrite (H x) by now left. f_equal. apply IH. intros y Hy. apply H. now right.
Qed.

Lemma existsb_eqb_In (k : string) (keys : list string) :
  existsb (String.eqb k) keys = true <-> In k keys.
Proof.
  rewrite existsb_exists. split.
  - intros [x [Hin E]]. apply String.eqb_eq in E. now subst.
  - intros Hin. exists k. split; [assumption|apply String.eqb_refl].
Qed.

Lemma obj_set_keys (V : Type) (obj : JSObject V) (key : string) (v : V) :
  map fst (obj_set obj key v)
  = if existsb (String.eqb key) (map fst obj) then map fst obj else map fst obj ++ [key].
Proof.
  induction obj as [|[k w] rest IH]; simpl; [reflexivity|].
  rewrite (String.eqb_sym key k).
  destruct (String.eqb k key); simpl; [reflexivity|].
  rewrite IH. destruct (existsb (String.eqb key) (map fst rest)); reflexivity.
Qed.

Lemma first_seen_In (keys : list string) (k : string) :
  In k (first_seen keys) <-> In k keys.
Proof.
  induction keys as [|x keys IH]; simpl; [tauto|].
  rewrite filter_In, IH. split.
  - intros [E|[Hin _]]; auto.
  - intros [E|Hin]; [now left|].
    destruct (String.eqb x k) eqn:E.
    + left. now apply String.eqb_eq.
    + right. split; [assumption|reflexivity].
Qed.

(** The counting reduce creates the keys in order of first occurrence. *)
Lemma count_fold_keys (key : Transaction -> string) (arr : list Transaction) :
  forall acc : JSObject nat,
    map fst
      (fold_left (fun acc t => obj_set acc (key t) (or_zero (obj_get acc (key t)) + 1)) arr acc)
    = map fst acc
      ++ filter (fun k => negb (existsb (String.eqb k) (map fst acc)))
           (first_seen (map key arr)).
Proof.
  induction arr as [|t arr IH]; intros acc; simpl.
  - now rewrite app_nil_r.
  - rewrite IH, obj_set_keys.
    destruct (existsb (String.eqb (key t)) (map fst acc)) eqn:Hseen; simpl.
    + f_equal. symmetry. apply filter_twice. intros x.
      destruct (String.eqb (key t) x) eqn:E; simpl; [|reflexivity].
      apply String.eqb_eq in E. subst x. now rewrite Hseen.
    + rewrite <- app_assoc. simpl. do 2 f_equal. symmetry.
      apply filter_twice. intros x.
      rewrite existsb_app. simpl. rewrite orb_false_r, negb_orb.
      rewrite (String.eqb_sym x (key t)). apply andb_comm.
Qed.

Lemma count_by_keys (key : Transaction -> string) (arr : list Transaction) :
  map fst (count_by key arr) = first_seen (map key arr).
Proof.
  unfold count_by. rewrite count_fold_keys. simpl.
  apply filter_all. reflexivity.
Qed.

Lemma index_keys_none (keys : list string) :
  (forall k, In k keys -> is_array_index k = false) -> index_keys keys = [].
Proof.
  induction keys as [|k keys IH]; simpl; intros H; [reflexivity|].
  assert (Hk : is_array_index k = false) by (apply H; now left).
  unfold is_array_index in Hk. destruct (array_index k); [discriminate|].
  apply IH. intros k' Hk'. apply H. now right.
Qed.

(** With no array-index key, [Object.keys] lists the keys as created. *)
Lemma Object_keys_creation_order (V : Type) (obj : JSObject V) :
  (forall k, In k (map fst obj) -> is_array_index k = false) ->
  Object_keys obj = map fst obj.
Proof.
  intros H. unfold Object_keys. rewrite index_keys_none by assumption. simpl.
  apply filter_all. intros k Hk. now rewrite H.
Qed.

(** ** The reduce that keeps the more counted of two keys *)

(** [a] leads the keys gone through so far: none before it counts more,
    and each after it counts less.  The reduce ends on a key that leads
    them all. *)
Lemma reduce_keeps_last_maximum (count : JSObject nat) (w : string -> nat) :
  forall (rest before between : list string) (a : string),
    (forall k, In k (a :: rest) -> obj_get count k = Some (w k)) ->
    (forall k, In k before -> w k <= w a) ->
    (forall k, In k between -> w k < w a) ->
    exists before' after',
      before ++ a :: between ++ rest
      = before' ++ fold_left
                     (fun a b => if js_gt (obj_get count a) (obj_get count b) then a else b)
                     rest a :: after'
      /\ (forall k, In k before' ->
                    w k <= w (fold_left
                                (fun a b =>
                                   if js_gt (obj_get count a) (obj_get count b) then a else b)
                                rest a))
      /\ (forall k, In k after' ->
                    w k < w (fold_left
                               (fun a b =>
                                  if js_gt (obj_get count a) (obj_get count b) then a else b)
                               rest a)).
Proof.
  induction rest as [|b rest IH]; intros before between a Hw Hbefore Hbetween; simpl.
  - exists before, between. rewrite app_nil_r. auto.
  - rewrite (Hw a) by now left. rewrite (Hw b) by (right; now left). simpl.
    destruct (Nat.ltb_spec (w b) (w a)) as [Hlt|Hge].
    + destruct (IH before (between ++ [b]) a) as [before' [after' [Heq H]]].
      * intros k [E|Hk]; apply Hw; [now left|right; now right].
      * assumption.
      * intros k Hk. apply in_app_or in Hk. destruct Hk as [Hk|[E|[]]]; [auto|now subst].
      * exists before', after'. rewrite <- app_assoc in Heq. auto.
    + destruct (IH (before ++ a :: between) [] b) as [before' [after' [Heq H]]].
      * intros k Hk. apply Hw. now right.
      * intros k Hk. apply in_app_or in Hk. destruct Hk as [Hk|[E|Hk]].
        -- specialize (Hbefore k Hk). lia.
        -- now subst.
        -- specialize (Hbetween k Hk). lia.
      * intros k [].
      * exists before', after'. rewrite <- app_assoc in Heq. auto.
Qed.

Lemma most_counted_last_seen_wins (key : Transaction -> string) (arr : list Transaction) :
  arr <> [] ->
  (forall t, In t arr -> is_array_index (key t) = false) ->
  exists winner,
    most_counted (count_by key arr) = Normal winner
    /\ last_seen_wins_ties (map key arr) winner.
Proof.
  intros Hne Hplain. unfold most_counted, last_seen_wins_ties.
  rewrite Object_keys_creation_order; rewrite count_by_keys.
  2:{ intros k Hk. rewrite first_seen_In, in_map_iff in Hk.
      destruct Hk as [t [E Ht]]. subst k. now apply Hplain. }
  assert (Hw : forall k, In k (first_seen (map key arr)) ->
                         obj_get (count_by key arr) k = Some (occurrences k (map key arr))).
  { intros k Hk. rewrite count_by_get. rewrite first_seen_In in Hk.
    rewrite (count_occ_In string_dec) in Hk. unfold occurrences.
    destruct (count_occ string_dec (map key arr) k); [lia|reflexivity]. }
  destruct arr as [|t arr]; [congruence|].
  remember (map key (t :: arr)) as labels eqn:Hlabels.
  destruct (first_seen labels) as [|first rest] eqn:Hkeys.
  { subst labels. discriminate. }
  simpl.
  destruct (@reduce_keeps_last_maximum (count_by key (t :: arr))
              (fun k => occurrences k labels) rest [] [] first)
    as [before [after [Heq [Hb Ha]]]].
  - assumption.
  - intros k [].
  - intros k [].
  - eexists. split; [reflexivity|]. exists before, after. simpl in Heq. auto.
Qed.

Section MonthWithMostTransactions.

Context {DATE : JSDate}.

(** The same for the month with most debits, when there is a debit. *)
Lemma findMostDebitTransactionMonth_last_seen_wins (this : Store) :
  getTransactionByType "debit" this <> [] ->
  (forall t, In t this -> ordinary_key (month_label t) = true) ->
  exists winner,
    findMostDebitTransactionMonth this = Normal winner
    /\ last_seen_wins_ties (map month_label (getTransactionByType "debit" this)) winner.
Proof.
  intros Hne Hplain. apply most_counted_last_seen_wins; [assumption|].
  intros t Ht. apply filter_In in Ht. destruct Ht as [Ht _].
  apply Hplain, andb_true_iff in Ht. destruct Ht as [Ht _].
  now apply negb_true_iff.
Qed.

(** C2 (as amended): for every non-empty store whose month labels are
    ordinary keys, [findMostTransactionsMonth] returns a label of the store
    with the highest count, and when several labels share that count the one
    LAST encountered, in order of first occurrence, wins the tie. *)
Theorem findMostTransactionsMonth_last_seen_wins (this : Store) :
  this <> [] ->
  (forall t, In t this -> ordinary_key (month_label t) = true) ->
  exists winner,
    findMostTransactionsMonth this = Normal winner
    /\ In winner (map month_label this)
    /\ (forall t, In t this ->
                  occurrences (month_label t) (map month_label this)
                  <= occurrences winner (map month_label this))
    /\ last_seen_wins_ties (map month_label this) winner.
Proof.
  intros Hne Hordinary.
  assert (Hplain : forall t, In t this -> is_array_index (month_label t) = false).
  { intros t Ht. apply Hordinary, andb_true_iff in Ht. destruct Ht as [Ht _].
    now apply negb_true_iff. }
  destruct (most_counted_last_seen_wins month_label Hne Hplain) as [winner [Hres Hlast]].
  exists winner. split; [exact Hres|].
  pose proof Hlast as [before [after [Heq [Hb Ha]]]].
  assert (Hin : forall l, In l (map month_label this) <->
                          In l before \/ l = winner \/ In l after).
  { intros l. rewrite <- first_seen_In, Heq, in_app_iff. simpl. intuition. }
  split; [apply Hin; auto|]. split; [|exact Hlast].
  intros t Ht.
  destruct (proj1 (Hin (month_label t)) (in_map month_label this t Ht)) as [H|[H|H]].
  - now apply Hb.
  - rewrite H. lia.
  - apply Nat.lt_le_incl. now apply Ha.
Qed.

End MonthWithMostTransactions.

Lemma findMostTransactionsMonth_last_seen_wins_witness :
  exists winner,
    findMostTransactionsMonth two_months = Normal winner
    /\ In winner (map month_label two_months)
    /\ (forall t, In t two_months ->
                  occurrences (month_label t) (map month_label two_months)
                  <= occurrences winner (map month_label two_months))
    /\ last_seen_wins_ties (map month_label two_months) winner.
Proof.
  apply (@findMostTransactionsMonth_last_seen_wins iso_utc_en two_months).
  - discriminate.
  - intros t [E|[E|[]]]; subst t; reflexivity.
Defined.

(** C2 (counterexample): two records, one in January 2019 and then one in
    February 2019.  Both labels have the highest count, 1, and January is
    seen first, but the method returns February: the reducer keeps [a] only
    when [count[a] > count[b]], so a tie moves on to [b]. *)
Lemma findMostTransactionsMonth_tie_not_first_seen :
  findMostTransactionsMonth two_months = Normal "February 2019"
  /\ first_seen (map month_label two_months) = ["January 2019"; "February 2019"]
  /\ occurrences "January 2019" (map month_label two_months) = 1
  /\ occurrences "February 2019" (map month_label two_months) = 1
  /\ ~ first_seen_wins_ties (map month_label two_months) "February 2019".
Proof.
  repeat split.
  intros [before [after [Heq [Hb _]]]].
  change (first_seen (map month_label two_months))
    with ["January 2019"; "February 2019"] in Heq.
  destruct before as [|x [|y before]]; simpl in Heq.
  - discriminate.
  - injection Heq as Ex _. subst x.
    specialize (Hb "January 2019" (or_introl eq_refl)).
    vm_compute in Hb. lia.
  - injection Heq as _ _ Heq. destruct before; discriminate.
Qed.

(** ** Sums by date *)

Lemma component_supplied (got arg : option Z) :
  js_not arg || js_strict_eq got arg = true
  <-> (forall v, arg = Some v -> v <> 0%Z -> got = Some v).
Proof.
  destruct arg as [v|]; simpl.
  - destruct (Z.eqb_spec v 0) as [E|E]; simpl.
    + split; [|reflexivity]. intros _ v' Hv' Hne. congruence.
    + destruct got as [g|]; simpl.
      * destruct (Z.eqb_spec g v) as [E'|E']; split; try reflexivity.
        -- intros _ v' Hv' _. congruence.
        -- discriminate.
        -- intros H. specialize (H v eq_refl E). congruence.
      * split; [discriminate|]. intros H. specialize (H v eq_refl E). discriminate.
  - split; [|reflexivity]. intros _ v Hv. discriminate.
Qed.

Section SumsByDate.

Context {num : Type} {NUM : JSNumber num} {DATE : JSDate}.

Lemma getter_result (f : Z -> Z) (date : DateObject) (v : Z) :
  option_map f date = Some v <-> exists ms, date = Some ms /\ f ms = v.
Proof.
  destruct date as [ms|]; simpl; split.
  - intros E. exists ms. split; congruence.
  - intros [ms' [E H]]. congruence.
  - discriminate.
  - intros [ms' [E _]]. discriminate.
Qed.

Lemma matches_date_spec (year month day : option Z) (t : Transaction) :
  matches_date year month day t = true <-> date_matches year month day t.
Proof.
  unfold matches_date, date_matches, getFullYear, getMonth, getDate.
  rewrite !andb_true_iff, !component_supplied.
  assert (Hmonth : forall m,
             option_map (Z.add 1) (option_map localMonth (Date_parse (transaction_date t)))
             = Some m
             <-> exists ms, Date_parse (transaction_date t) = Some ms
                            /\ localMonth ms = (m - 1)%Z).
  { intros m. destruct (Date_parse (transaction_date t)) as [ms|]; cbn [option_map]; split.
    - intros E. exists ms. split; [reflexivity|].
      assert (E' : (1 + localMonth ms)%Z = m) by congruence. lia.
    - intros [ms' [E H]]. injection E as E. subst ms'. f_equal. lia.
    - discriminate.
    - intros [ms' [E _]]. discriminate. }
  split.
  - intros [[Hy Hm] Hd]. repeat split; intros v Hv Hne.
    + now apply getter_result, Hy.
    + now apply Hmonth, Hm.
    + now apply getter_result, Hd.
  - intros [Hy [Hm Hd]]. repeat split; intros v Hv Hne.
    + now apply getter_result, Hy.
    + now apply Hmonth, Hm.
    + now apply getter_result, Hd.
Qed.

(** C3: [calculateTotalAmountByDate(year, month, day)] adds up, from 0 and
    in store order, the parsed amounts of exactly the records whose date
    agrees with every supplied (non-null, non-zero) component, an omitted
    component being a wildcard and the month counting from 1; when no record
    agrees the result is 0. *)
Theorem calculateTotalAmountByDate_sums_matching
  (year month day : option Z) (this : Store) :
  exists selected : Transaction -> bool,
    (forall t, selected t = true <-> date_matches year month day t)
    /\ calculateTotalAmountByDate year month day this
       = fold_left (fun total t => num_add total (parseFloat (transaction_amount t)))
           (filter selected this) num_zero
    /\ ((forall t, In t this -> ~ date_matches year month day t) ->
        calculateTotalAmountByDate year month day this = num_zero).
Proof.
  exists (matches_date year month day).
  split; [apply matches_date_spec|]. split; [reflexivity|].
  intros Hnone. unfold calculateTotalAmountByDate.
  replace (filter (matches_date year month day) this) with (@nil Transaction);
    [reflexivity|].
  symmetry. induction this as [|t this IH]; simpl; [reflexivity|].
  destruct (matches_date year month day t) eqn:E.
  - exfalso. apply (Hnone t); [now left|]. now apply matches_date_spec.
  - apply IH. intros t' Ht'. apply Hnone. now right.
Qed.

End SumsByDate.

(** The scenarios of the specification, on binary64. *)
Example scenario_total_by_date :
  calculateTotalAmountByDate (Some 2019%Z) (Some 1%Z) (Some 1%Z) scenario
  = PrimFloat.of_uint63 100.
Proof. reflexivity. Qed.

Example scenario_total_by_month :
  calculateTotalAmountByDate (Some 2019%Z) (Some 1%Z) None scenario
  = PrimFloat.of_uint63 150
  /\ calculateTotalAmountByDate None (Some 2%Z) None scenario = PrimFloat.zero.
Proof. split; reflexivity. Qed.

(** ** The total and its two parts *)

(** *** Whole numbers add without rounding *)

Lemma shl_Z (p : positive) (k : nat) : Z.pos (shl p k) = (Z.pos p * 2 ^ Z.of_nat k)%Z.
Proof.
  induction k as [|k IH].
  - simpl. lia.
  - unfold shl in *. rewrite Nat.iter_succ, (Pos2Z.inj_xO (Nat.iter k xO p)), IH.
    rewrite Nat2Z.inj_succ, Z.pow_succ_r by lia. lia.
Qed.

Lemma shl_of_Z (p c : positive) (k : nat) :
  Z.pos p = (Z.pos c * 2 ^ Z.of_nat k)%Z -> p = shl c k.
Proof. rewrite <- shl_Z. congruence. Qed.

Lemma digits_shl (p : positive) (k : nat) :
  Z.pos (digits2_pos (shl p k)) = (Z.pos (digits2_pos p) + Z.of_nat k)%Z.
Proof.
  induction k as [|k IH]; [simpl; lia|].
  unfold shl in *. rewrite Nat.iter_succ. cbn [digits2_pos].
  rewrite Pos2Z.inj_succ, IH. lia.
Qed.

Lemma pos_iter_shl (p d : positive) : Pos.iter xO p d = shl p (Pos.to_nat d).
Proof. unfold shl. apply Pos2Nat.inj_iter. Qed.

Lemma iter_pos_nat (A : Type) (f : A -> A) (n : positive) :
  forall x, iter_pos f n x = Nat.iter (Pos.to_nat n) f x.
Proof.
  induction n as [n IH|n IH|]; intros x; cbn [iter_pos].
  - rewrite !IH, Pos2Nat.inj_xI.
    replace (S (2 * Pos.to_nat n)) with (Pos.to_nat n + (Pos.to_nat n + 1))%nat by lia.
    rewrite !Nat.iter_add. simpl. reflexivity.
  - rewrite !IH, Pos2Nat.inj_xO.
    replace (2 * Pos.to_nat n)%nat with (Pos.to_nat n + Pos.to_nat n)%nat by lia.
    now rewrite Nat.iter_add.
  - reflexivity.
Qed.

(** Shifting out [k] zeros loses nothing. *)
Lemma shr_exact (c : positive) (k : nat) :
  Nat.iter k shr_1 (Build_shr_record (Z.pos (shl c k)) false false)
  = Build_shr_record (Z.pos c) false false.
Proof.
  induction k as [|k IH]; [reflexivity|].
  rewrite Nat.iter_succ_r. unfold shl. rewrite Nat.iter_succ. cbn [shr_1 orb]. apply IH.
Qed.

Lemma fexp_normal (e : Z) : (-1074 <= e - 53)%Z -> fexp prec emax e = (e - 53)%Z.
Proof.
  intros H. unfold fexp, SpecFloat.emin, prec, emax.
  change IntDef.Z.max with Z.max. change IntDef.Z.sub with Z.sub. lia.
Qed.

Section RoundingCanonical.

Variables (sx : bool) (c : positive) (f : Z).
Hypothesis Hc : Z.pos (digits2_pos c) = 53%Z.
Hypothesis Hf : (-1074 <= f <= 971)%Z.

Lemma shr_fexp_trailing_zeros (j : nat) :
  shr_fexp prec emax (Z.pos (shl c j)) (f - Z.of_nat j) loc_Exact
  = (Build_shr_record (Z.pos c) false false, f).
Proof.
  unfold shr_fexp, Zdigits2. change IntDef.Z.add with Z.add. change IntDef.Z.sub with Z.sub.
  rewrite digits_shl, Hc, fexp_normal by lia.
  replace (53 + Z.of_nat j + (f - Z.of_nat j) - 53 - (f - Z.of_nat j))%Z
    with (Z.of_nat j) by lia.
  destruct j as [|j].
  - simpl. f_equal. lia.
  - change (Z.of_nat (S j)) with (Z.pos (Pos.of_succ_nat j)).
    unfold shr, shr_record_of_loc.
    rewrite iter_pos_nat, SuccNat2Pos.id_succ, shr_exact. f_equal.
    change IntDef.Z.add with Z.add. lia.
Qed.

(** A mantissa of 53 digits followed by [j] zeros rounds to itself. *)
Lemma round_trailing_zeros (j : nat) :
  binary_round prec emax sx (shl c j) (f - Z.of_nat j) = S754_finite sx c f.
Proof.
  unfold binary_round, shl_align. change IntDef.Z.add with Z.add. change IntDef.Z.sub with Z.sub.
  rewrite digits_shl, Hc, fexp_normal by lia.
  replace (53 + Z.of_nat j + (f - Z.of_nat j) - 53 - (f - Z.of_nat j))%Z
    with (Z.of_nat j) by lia.
  assert (Haux : binary_round_aux prec emax sx (Z.pos (shl c j)) (f - Z.of_nat j) loc_Exact
                 = S754_finite sx c f).
  { unfold binary_round_aux. rewrite shr_fexp_trailing_zeros.
    cbn [shr_m loc_of_shr_record round_nearest_even].
    replace f with (f - Z.of_nat 0)%Z at 1 by (simpl; lia).
    change (Z.pos c) with (Z.pos (shl c 0)). rewrite shr_fexp_trailing_zeros.
    cbn [shr_m]. change IntDef.Z.leb with Z.leb. change IntDef.Z.sub with Z.sub.
    unfold emax, prec. destruct (Z.leb_spec f (1024 - 53)); [reflexivity|lia]. }
  destruct j as [|j]; exact Haux.
Qed.

(** A shorter mantissa is first moved up to 53 digits. *)
Lemma round_short_mantissa (p : positive) (i : nat) :
  c = shl p i ->
  binary_round prec emax sx p (f + Z.of_nat i) = S754_finite sx c f.
Proof.
  intros Hshl.
  assert (Hd : Z.pos (digits2_pos p) = (53 - Z.of_nat i)%Z).
  { pose proof (digits_shl p i) as H. rewrite <- Hshl, Hc in H. lia. }
  pose proof (round_trailing_zeros 0) as Hzero. simpl in Hzero.
  replace (f - 0)%Z with f in Hzero by lia.
  unfold binary_round in *. unfold shl_align in *.
  change IntDef.Z.add with Z.add in *. change IntDef.Z.sub with Z.sub in *.
  rewrite Hc, fexp_normal in Hzero by lia.
  replace (53 + f - 53 - f)%Z with 0%Z in Hzero by lia. cbv iota in Hzero.
  rewrite Hd, fexp_normal by lia.
  replace (53 - Z.of_nat i + (f + Z.of_nat i) - 53 - (f + Z.of_nat i))%Z
    with (- Z.of_nat i)%Z by lia.
  destruct i as [|i].
  { simpl Z.of_nat. cbv iota. simpl in Hshl. subst p.
    replace (f + 0)%Z with f by lia. exact Hzero. }
  change (Z.of_nat (S i)) with (Z.pos (Pos.of_succ_nat i)). cbn [Z.opp]. cbv iota.
  rewrite pos_iter_shl, SuccNat2Pos.id_succ, <- Hshl.
  replace (53 - Z.pos (Pos.of_succ_nat i) + (f + Z.pos (Pos.of_succ_nat i)) - 53)%Z
    with f by lia.
  exact Hzero.
Qed.

End RoundingCanonical.

Lemma digits2_pos_bounds (p : positive) :
  (2 ^ (Z.pos (digits2_pos p) - 1) <= Z.pos p < 2 ^ Z.pos (digits2_pos p))%Z.
Proof.
  induction p as [p IH|p IH|]; cbn [digits2_pos].
  - rewrite Pos2Z.inj_succ, (Pos2Z.inj_xI p).
    replace (Z.succ (Z.pos (digits2_pos p)) - 1)%Z
      with (Z.succ (Z.pos (digits2_pos p) - 1)) by lia.
    rewrite !Z.pow_succ_r by lia. lia.
  - rewrite Pos2Z.inj_succ, (Pos2Z.inj_xO p).
    replace (Z.succ (Z.pos (digits2_pos p)) - 1)%Z
      with (Z.succ (Z.pos (digits2_pos p) - 1)) by lia.
    rewrite !Z.pow_succ_r by lia. lia.
  - simpl. lia.
Qed.

Lemma digits2_pos_small (p : positive) :
  (Z.pos p < 2 ^ 53)%Z -> (Z.pos (digits2_pos p) <= 53)%Z.
Proof.
  intros H. destruct (Z.le_gt_cases (Z.pos (digits2_pos p)) 53) as [Hle|Hgt]; [assumption|].
  exfalso. pose proof (digits2_pos_bounds p) as [Hlow _].
  assert (2 ^ 53 <= 2 ^ (Z.pos (digits2_pos p) - 1))%Z by (apply Z.pow_le_mono_r; lia).
  lia.
Qed.

(** Any way of writing a whole number of at most 53 digits as p * 2^-K
    rounds to its canonical form. *)
Lemma round_integer (sx : bool) (n p : positive) (K : nat) :
  (Z.pos (digits2_pos n) <= 53)%Z ->
  Z.pos p = (Z.pos n * 2 ^ Z.of_nat K)%Z ->
  binary_round prec emax sx p (- Z.of_nat K) = canonical sx n.
Proof.
  intros Hd Hp. unfold canonical.
  remember (Pos.to_nat (digits2_pos n)) as d eqn:Ed.
  assert (Hdz : Z.pos (digits2_pos n) = Z.of_nat d) by lia.
  remember (shl n (53 - d)) as c eqn:Ec.
  assert (Hc : Z.pos (digits2_pos c) = 53%Z) by (subst c; rewrite digits_shl; lia).
  assert (Hcz : Z.pos c = (Z.pos n * 2 ^ Z.of_nat (53 - d))%Z) by (subst c; apply shl_Z).
  rewrite Hdz.
  destruct (Nat.le_gt_cases (53 - d) K) as [Hbig|Hsmall].
  - assert (Hshl : p = shl c (K - (53 - d))).
    { apply shl_of_Z. rewrite Hp, Hcz, <- Z.mul_assoc, <- Z.pow_add_r by lia.
      do 2 f_equal. lia. }
    rewrite Hshl.
    replace (- Z.of_nat K)%Z with (Z.of_nat d - 53 - Z.of_nat (K - (53 - d)))%Z by lia.
    apply round_trailing_zeros; [assumption|lia].
  - replace (- Z.of_nat K)%Z with (Z.of_nat d - 53 + Z.of_nat (53 - d - K))%Z by lia.
    apply round_short_mantissa; [assumption|lia|].
    apply shl_of_Z. rewrite Hcz, Hp, <- Z.mul_assoc, <- Z.pow_add_r by lia.
    do 2 f_equal. lia.
Qed.

Lemma Prim2SF_float_of_N (p : positive) :
  (Z.pos p < 2 ^ 53)%Z -> Prim2SF (float_of_N (Npos p)) = canonical false p.
Proof.
  intros H. unfold float_of_N. rewrite FloatAxioms.of_uint63_spec, Uint63.of_Z_spec.
  rewrite Z.mod_small.
  2:{ change wB with (2 ^ 63)%Z. simpl Z.of_N.
      assert (2 ^ 53 < 2 ^ 63)%Z by (apply Z.pow_lt_mono_r; lia). lia. }
  simpl Z.of_N. unfold binary_normalize.
  apply (@round_integer false p p 0).
  - now apply digits2_pos_small.
  - simpl. lia.
Qed.

Lemma Prim2SF_float_of_Z (n : Z) :
  (Z.abs n < 2 ^ 53)%Z -> Prim2SF (float_of_Z n) = SF_of_Z n.
Proof.
  intros H. unfold float_of_Z.
  destruct n as [|p|p]; cbn [Z.ltb Z.compare Z.opp Z.to_N SF_of_Z].
  - reflexivity.
  - apply Prim2SF_float_of_N. lia.
  - rewrite FloatAxioms.opp_spec, Prim2SF_float_of_N by lia. reflexivity.
Qed.

Lemma shl_align_value (m : positive) (e e' : Z) :
  (e' <= e)%Z ->
  Z.pos (fst (shl_align m e e')) = (Z.pos m * 2 ^ (e - e'))%Z.
Proof.
  intros H. unfold shl_align. change IntDef.Z.sub with Z.sub.
  destruct (e' - e)%Z as [|d|d] eqn:E.
  - replace (e - e')%Z with 0%Z by lia. simpl. lia.
  - lia.
  - cbn [fst]. rewrite pos_iter_shl, shl_Z. do 2 f_equal. lia.
Qed.

Lemma canonical_value (p : positive) (ez : Z) :
  (Z.pos p < 2 ^ 53)%Z -> (ez <= Z.pos (digits2_pos p) - 53)%Z ->
  Z.pos (fst (shl_align (shl p (53 - Pos.to_nat (digits2_pos p)))
                (Z.pos (digits2_pos p) - 53) ez))
  = (Z.pos p * 2 ^ (- ez))%Z.
Proof.
  intros Hp Hez. pose proof (@digits2_pos_small p Hp) as Hd.
  rewrite shl_align_value, shl_Z by assumption.
  rewrite <- Z.mul_assoc, <- Z.pow_add_r by lia. do 2 f_equal. lia.
Qed.

Lemma SFadd_integers (a b : Z) :
  (Z.abs a < 2 ^ 53)%Z -> (Z.abs b < 2 ^ 53)%Z -> (Z.abs (a + b) < 2 ^ 53)%Z ->
  SF64add (SF_of_Z a) (SF_of_Z b) = SF_of_Z (a + b).
Proof.
  intros Ha Hb Hab.
  destruct a as [|pa|pa]; [destruct b; reflexivity| |];
    (destruct b as [|pb|pb]; [rewrite Z.add_0_r; reflexivity| |]).
  all: unfold SF_of_Z at 1 2, canonical, SF64add, SFadd.
  all: change IntDef.Z.min with Z.min.
  all: remember (Z.min (Z.pos (digits2_pos pa) - 53) (Z.pos (digits2_pos pb) - 53)) as ez
         eqn:Hez.
  all: pose proof (@digits2_pos_small pa ltac:(lia)) as Hda.
  all: pose proof (@digits2_pos_small pb ltac:(lia)) as Hdb.
  all: rewrite !canonical_value by lia.
  all: change IntDef.Z.add with Z.add; unfold cond_Zopp; change IntDef.Z.opp with Z.opp.
  all: remember (Z.to_nat (- ez)) as K eqn:HK.
  all: replace (- ez)%Z with (Z.of_nat K) by lia.
  all: replace ez with (- Z.of_nat K)%Z by lia.
  all: match goal with
       | |- binary_normalize _ _ ?M _ _ = SF_of_Z ?s =>
           assert (HM : M = (s * 2 ^ Z.of_nat K)%Z) by lia;
           rewrite HM; clear HM; remember s as n eqn:En
       end.
  all: assert (H2 : (0 < 2 ^ Z.of_nat K)%Z) by (apply Z.pow_pos_nonneg; lia).
  all: destruct n as [|n|n]; cbn [SF_of_Z]; [reflexivity| |].
  all: unfold binary_normalize.
  all: destruct (_ * _)%Z as [|P|P] eqn:EP; try lia.
  all: apply round_integer; [apply digits2_pos_small; lia|lia].
Qed.

(** On binary64, two whole numbers below 2^53 in absolute value whose sum
    is below 2^53 add to the double of their sum. *)
Lemma add_integers_exact (a b : Z) :
  (Z.abs a < 2 ^ 53)%Z -> (Z.abs b < 2 ^ 53)%Z -> (Z.abs (a + b) < 2 ^ 53)%Z ->
  PrimFloat.add (float_of_Z a) (float_of_Z b) = float_of_Z (a + b).
Proof.
  intros Ha Hb Hab. apply Prim2SF_inj.
  rewrite FloatAxioms.add_spec, !Prim2SF_float_of_Z by assumption.
  now apply SFadd_integers.
Qed.

(** *** Sums of whole amounts *)

Lemma total_magnitude_nonneg (units : Transaction -> Z) (arr : list Transaction) :
  (0 <= total_magnitude units arr)%Z.
Proof. induction arr as [|t arr IH]; simpl; lia. Qed.

Lemma sum_units_bound (units : Transaction -> Z) (arr : list Transaction) :
  (Z.abs (sum_units units arr) <= total_magnitude units arr)%Z.
Proof. induction arr as [|t arr IH]; simpl; lia. Qed.

Lemma total_magnitude_filter (units : Transaction -> Z) (keep : Transaction -> bool)
  (arr : list Transaction) :
  (total_magnitude units (filter keep arr) <= total_magnitude units arr)%Z.
Proof.
  induction arr as [|t arr IH]; simpl; [lia|].
  destruct (keep t); simpl; lia.
Qed.

Lemma sum_units_split (units : Transaction -> Z) (keep : Transaction -> bool)
  (arr : list Transaction) :
  sum_units units arr
  = (sum_units units (filter keep arr)
     + sum_units units (filter (fun t => negb (keep t)) arr))%Z.
Proof.
  induction arr as [|t arr IH]; simpl; [reflexivity|].
  destruct (keep t); simpl; lia.
Qed.

Section WholeAmounts.

Variables (parse coerce : string -> float) (units : Transaction -> Z).

Lemma fold_whole_amounts (arr : list Transaction) :
  forall acc : Z,
    (forall t, In t arr -> parse (transaction_amount t) = float_of_Z (units t)) ->
    (Z.abs acc + total_magnitude units arr < 2 ^ 53)%Z ->
    fold_left (fun total t => PrimFloat.add total (parse (transaction_amount t)))
      arr (float_of_Z acc)
    = float_of_Z (acc + sum_units units arr).
Proof.
  induction arr as [|t arr IH]; intros acc Hwhole Hbound.
  - cbn [fold_left sum_units fold_right]. now rewrite Z.add_0_r.
  - change (total_magnitude units (t :: arr))
      with (Z.abs (units t) + total_magnitude units arr)%Z in Hbound.
    change (sum_units units (t :: arr)) with (units t + sum_units units arr)%Z.
    cbn [fold_left].
    pose proof (total_magnitude_nonneg units arr) as Hnonneg.
    rewrite (Hwhole t) by now left.
    rewrite (@add_integers_exact acc (units t)) by lia.
    rewrite IH.
    + apply (f_equal float_of_Z). lia.
    + intros t' Ht'. apply Hwhole. now right.
    + lia.
Qed.

(** Every sum the class takes over records with whole amounts is the
    double of the sum of the whole numbers. *)
Lemma sum_amounts_whole (arr : list Transaction) :
  (forall t, In t arr -> parse (transaction_amount t) = float_of_Z (units t)) ->
  (total_magnitude units arr < 2 ^ 53)%Z ->
  @sum_amounts float (binary64_with parse coerce) arr = float_of_Z (sum_units units arr).
Proof.
  intros Hwhole Hbound. unfold sum_amounts. cbn [num_zero num_add parseFloat binary64_with].
  change PrimFloat.zero with (float_of_Z 0).
  rewrite fold_whole_amounts; [reflexivity|assumption|].
  change (Z.abs 0) with 0%Z. lia.
Qed.

Lemma sum_amounts_whole_selected (keep : Transaction -> bool) (arr : list Transaction) :
  (forall t, In t arr -> parse (transaction_amount t) = float_of_Z (units t)) ->
  (total_magnitude units arr < 2 ^ 53)%Z ->
  @sum_amounts float (binary64_with parse coerce) (filter keep arr)
  = float_of_Z (sum_units units (filter keep arr)).
Proof.
  intros Hwhole Hbound. apply sum_amounts_whole.
  - intros t Ht. apply filter_In in Ht. now apply Hwhole.
  - pose proof (total_magnitude_filter units keep arr). lia.
Qed.

End WholeAmounts.

(** C4 (as amended): on binary64, whatever [parseFloat] reads, for every
    store, empty or not, whose amounts parse to whole numbers with absolute
    values summing to less than 2^53, no addition rounds:
    [calculateTotalAmount()] equals [calculateTotalDebitAmount()] plus the
    sum of the amounts of the records that are not "debit", and is the
    double of the sum of the whole numbers.  On the empty store
    [calculateTotalAmount()] is 0, in any arithmetic. *)
Theorem total_is_debit_plus_non_debit_on_whole_amounts :
  (forall (parse coerce : string -> float) (units : Transaction -> Z) (this : Store),
      (forall t, In t this -> parse (transaction_amount t) = float_of_Z (units t)) ->
      (total_magnitude units this < 2 ^ 53)%Z ->
      @calculateTotalAmount float (binary64_with parse coerce) this
      = PrimFloat.add
          (@calculateTotalDebitAmount float (binary64_with parse coerce) this)
          (@sum_amounts float (binary64_with parse coerce) (non_debit this))
      /\ @calculateTotalAmount float (binary64_with parse coerce) this
         = float_of_Z (sum_units units this))
  /\ (forall (num : Type) (NUM : JSNumber num),
         @calculateTotalAmount num NUM [] = num_zero).
Proof.
  split; [|reflexivity].
  intros parse coerce units this Hwhole Hbound.
  unfold calculateTotalAmount, calculateTotalDebitAmount, getTransactionByType, non_debit.
  rewrite (sum_amounts_whole parse coerce units this Hwhole Hbound).
  rewrite !(sum_amounts_whole_selected parse coerce units _ this Hwhole Hbound).
  split; [|reflexivity].
  pose proof (sum_units_bound units this) as Hall.
  pose proof (sum_units_bound units
                (filter (fun t => String.eqb (transaction_type t) "debit") this)) as Hdebit.
  pose proof (sum_units_bound units
                (filter (fun t => negb (String.eqb (transaction_type t) "debit")) this))
    as Hother.
  pose proof (total_magnitude_filter units
                (fun t => String.eqb (transaction_type t) "debit") this).
  pose proof (total_magnitude_filter units
                (fun t => negb (String.eqb (transaction_type t) "debit")) this).
  pose proof (sum_units_split units
                (fun t => String.eqb (transaction_type t) "debit") this) as Hsplit.
  cbv beta in *. rewrite add_integers_exact by lia. now rewrite <- Hsplit.
Qed.

Lemma total_is_debit_plus_non_debit_on_whole_amounts_witness :
  @calculateTotalAmount float binary64 scenario
  = PrimFloat.add (@calculateTotalDebitAmount float binary64 scenario)
                  (@sum_amounts float binary64 (non_debit scenario))
  /\ @calculateTotalAmount float binary64 scenario
     = float_of_Z (sum_units scenario_units scenario).
Proof.
  apply (proj1 total_is_debit_plus_non_debit_on_whole_amounts
           float_parseFloat float_ToNumber scenario_units scenario).
  - intros t [E|[E|[]]]; subst t; reflexivity.
  - reflexivity.
Defined.

(** The scenario's sums: 150 in all, 100 of debits and 50 of the rest. *)
Example scenario_total_and_parts :
  @calculateTotalAmount float binary64 scenario = float_of_Z 150
  /\ @calculateTotalDebitAmount float binary64 scenario = float_of_Z 100
  /\ @sum_amounts float binary64 (non_debit scenario) = float_of_Z 50
  /\ sum_units scenario_units scenario = 150%Z.
Proof. repeat split. Qed.
(** C4 (counterexample): amounts "0.1" (debit), "0.2" and "0.3" (credit) on
    binary64.  The total, ((0 + 0.1) + 0.2) + 0.3, is 0.6000000000000001;
    the debit total 0.1 plus the sum of the others, 0.2 + 0.3 = 0.5, is 0.6:
    the two differ in the last bit, and [===] on them is false. *)
Lemma total_differs_from_debit_plus_non_debit :
  @calculateTotalAmount float binary64 three_amounts = 0x1.3333333333334p-1%float
  /\ PrimFloat.add (calculateTotalDebitAmount three_amounts)
                   (sum_amounts (non_debit three_amounts))
     = 0x1.3333333333333p-1%float
  /\ PrimFloat.eqb
       (calculateTotalAmount three_amounts)
       (PrimFloat.add (calculateTotalDebitAmount three_amounts)
                      (sum_amounts (non_debit three_amounts)))
     = false
  /\ @calculateTotalAmount float binary64 three_amounts
     <> PrimFloat.add (calculateTotalDebitAmount three_amounts)
                      (sum_amounts (non_debit three_amounts)).
Proof.
  repeat split.
  intros H.
  apply (f_equal (fun x => PrimFloat.eqb x 0x1.3333333333334p-1%float)) in H.
  vm_compute in H. discriminate.
Qed.

(** ** What a call does to the array *)

Section Calls.

Context {num : Type} {NUM : JSNumber num} {DATE : JSDate}.

Lemma invoke_keeps_array (c : Call) (this : Store) :
  is_addTransaction c = false -> fst (invoke c this) = this.
Proof.
  destruct c; simpl; intros H; try reflexivity; try discriminate.
Qed.

Lemma run_keeps_array (calls : list Call) :
  forall this : Store,
    forallb (fun c => negb (is_addTransaction c)) calls = true -> run calls this = this.
Proof.
  induction calls as [|c calls IH]; intros this H; simpl in *; [reflexivity|].
  apply andb_true_iff in H. destruct H as [Hc Hcalls].
  apply negb_true_iff in Hc.
  pose proof (invoke_keeps_array c this Hc) as Hkeep.
  destruct (invoke c this) as [store [v|e]]; simpl in Hkeep; subst store; auto.
Qed.

(** C5: after [addTransaction(t)] the array [getAllTransaction()] returns
    is one element longer, its last element is [t], and the elements that
    were there are where they were; a call of any other method, and any
    script of such calls, leaves the array as it was. *)
Theorem addTransaction_appends_and_only_it_writes :
  (forall (this : Store) (t : Transaction),
      getAllTransaction (fst (invoke (call_addTransaction t) this))
      = getAllTransaction this ++ [t]
      /\ List.length (getAllTransaction (fst (invoke (call_addTransaction t) this)))
         = S (List.length (getAllTransaction this))
      /\ nth_error (getAllTransaction (fst (invoke (call_addTransaction t) this)))
           (List.length (getAllTransaction this))
         = Some t
      /\ (forall i, (i < List.length (getAllTransaction this))%nat ->
                    nth_error (getAllTransaction (fst (invoke (call_addTransaction t) this))) i
                    = nth_error (getAllTransaction this) i))
  /\ (forall (c : Call) (this : Store),
         is_addTransaction c = false ->
         getAllTransaction (fst (invoke c this)) = getAllTransaction this)
  /\ (forall (calls : list Call) (this : Store),
         forallb (fun c => negb (is_addTransaction c)) calls = true ->
         getAllTransaction (run calls this) = getAllTransaction this).
Proof.
  unfold getAllTransaction. split; [|split].
  - intros this t. simpl. unfold addTransaction. repeat split.
    + rewrite length_app. simpl. lia.
    + rewrite nth_error_app2 by lia. now rewrite Nat.sub_diag.
    + intros i Hi. now rewrite nth_error_app1.
  - apply invoke_keeps_array.
  - apply run_keeps_array.
Qed.

(** ** Filters on dates *)

(** C6: for valid dates [s <= e], [getTransactionsInDateRange(s, e)] keeps,
    in store order, exactly the records whose date [d] is valid with
    [s <= d <= e]; a record dated exactly [s] or exactly [e] is kept; and
    [getTransactionsBeforeDate(b)] keeps exactly the records whose date is
    valid and strictly less than [b]. *)
Theorem date_range_inclusive_before_strict
  (this : Store) (startDate endDate before : string) (s e b : Z) :
  Date_parse startDate = Some s ->
  Date_parse endDate = Some e ->
  Date_parse before = Some b ->
  (s <= e)%Z ->
  (exists kept : Transaction -> bool,
      getTransactionsInDateRange startDate endDate this = filter kept this
      /\ forall t, kept t = true
                   <-> exists d, Date_parse (transaction_date t) = Some d /\ (s <= d <= e)%Z)
  /\ (forall t, In t this ->
                Date_parse (transaction_date t) = Some s
                \/ Date_parse (transaction_date t) = Some e ->
                In t (getTransactionsInDateRange startDate endDate this))
  /\ (exists kept : Transaction -> bool,
         getTransactionsBeforeDate before this = filter kept this
         /\ forall t, kept t = true
                      <-> exists d, Date_parse (transaction_date t) = Some d /\ (d < b)%Z).
Proof.
  intros Hs He Hb Hse.
  unfold getTransactionsInDateRange, getTransactionsBeforeDate.
  rewrite Hs, He, Hb. split; [|split].
  - eexists. split; [reflexivity|]. intros t. cbv beta zeta.
    destruct (Date_parse (transaction_date t)) as [d|]; simpl.
    + rewrite andb_true_iff, !Z.leb_le. split.
      * intros H. exists d. split; [reflexivity|lia].
      * intros [d' [E H]]. injection E as E. subst d'. lia.
    + split; [discriminate|]. intros [d [E _]]. discriminate.
  - intros t Hin Hd. apply filter_In. split; [assumption|].
    destruct Hd as [Hd|Hd]; rewrite Hd; simpl;
      apply andb_true_iff; rewrite !Z.leb_le; lia.
  - eexists. split; [reflexivity|]. intros t. cbv beta.
    destruct (Date_parse (transaction_date t)) as [d|]; simpl.
    + rewrite Z.ltb_lt. split.
      * intros H. exists d. split; [reflexivity|assumption].
      * intros [d' [E H]]. injection E as E. now subst d'.
    + split; [discriminate|]. intros [d [E _]]. discriminate.
Qed.

(** C9: a record whose [transaction_date] does not parse is in the result
    of neither [getTransactionsInDateRange] nor [getTransactionsBeforeDate],
    whatever the bounds: its date compares false with every date; and the
    calls that filter on dates return normally on every store. *)
Theorem invalid_date_is_left_out
  (this : Store) (t : Transaction) (startDate endDate before : string) :
  Date_parse (transaction_date t) = None ->
  ~ In t (getTransactionsInDateRange startDate endDate this)
  /\ ~ In t (getTransactionsBeforeDate before this)
  /\ (forall d : DateObject,
         date_le (Date_parse (transaction_date t)) d = false
         /\ date_le d (Date_parse (transaction_date t)) = false
         /\ date_lt (Date_parse (transaction_date t)) d = false)
  /\ snd (invoke (call_getTransactionsInDateRange startDate endDate) this)
     = Normal (v_records (getTransactionsInDateRange startDate endDate this))
  /\ snd (invoke (call_getTransactionsBeforeDate before) this)
     = Normal (v_records (getTransactionsBeforeDate before this))
  /\ (forall year month day,
         snd (invoke (call_calculateTotalAmountByDate year month day) this)
         = Normal (v_number (calculateTotalAmountByDate year month day this))).
Proof.
  intros Hbad. unfold getTransactionsInDateRange, getTransactionsBeforeDate.
  repeat split.
  - intros Hin. apply filter_In in Hin. destruct Hin as [_ H].
    rewrite Hbad in H. destruct (Date_parse startDate); discriminate.
  - intros Hin. apply filter_In in Hin. destruct Hin as [_ H].
    rewrite Hbad in H. discriminate.
  - rewrite Hbad. reflexivity.
  - rewrite Hbad. destruct d; reflexivity.
  - rewrite Hbad. reflexivity.
Qed.

(** ** Lookup by identifier *)

(** C7: [findTransactionById(id)] returns the record at the lowest index
    whose [transaction_id] is [id], and [null] when the store has no such
    record; the call returns normally in both cases. *)
Theorem findTransactionById_first_match_or_null (id : string) (this : Store) :
  match findTransactionById id this with
  | Some t =>
      exists i, nth_error this i = Some t
                /\ transaction_id t = id
                /\ forall j u, (j < i)%nat -> nth_error this j = Some u ->
                               transaction_id u <> id
  | None => forall t, In t this -> transaction_id t <> id
  end
  /\ snd (invoke (call_findTransactionById id) this)
     = Normal (v_record_or_null (findTransactionById id this)).
Proof.
  split; [|reflexivity]. unfold findTransactionById.
  induction this as [|r this IH]; simpl.
  - intros t [].
  - destruct (String.eqb (transaction_id r) id) eqn:E.
    + exists 0%nat. repeat split.
      * now apply String.eqb_eq.
      * intros j u Hj. lia.
    + apply String.eqb_neq in E.
      destruct (find (fun t => String.eqb (transaction_id t) id) this) as [t|].
      * destruct IH as [i [Hi [Hid Hfirst]]]. exists (S i). repeat split; auto.
        intros [|j] u Hj Hu; simpl in Hu.
        -- now injection Hu as <-.
        -- apply (Hfirst j); [lia|assumption].
      * intros t [<-|Hin]; auto.
Qed.

(** ** Months with debits *)

(** C10: on every store with no "debit" record, the empty store or not,
    [findMostDebitTransactionMonth()] throws: the table of counts has no
    key, and [reduce] without an initial value throws a TypeError on an
    empty array. *)
Theorem findMostDebitTransactionMonth_throws_without_debit (this : Store) :
  (forall t, In t this -> transaction_type t <> "debit") ->
  findMostDebitTransactionMonth this = Throw TypeError
  /\ snd (invoke call_findMostDebitTransactionMonth this) = Throw TypeError.
Proof.
  intros Hnone.
  assert (Hempty : getTransactionByType "debit" this = []).
  { unfold getTransactionByType. induction this as [|t this IH]; simpl; [reflexivity|].
    destruct (String.eqb (transaction_type t) "debit") eqn:E.
    - apply String.eqb_eq in E. exfalso. apply (Hnone t); [now left|assumption].
    - apply IH. intros t' Ht'. apply Hnone. now right. }
  assert (Hthrow : findMostDebitTransactionMonth this = Throw TypeError).
  { unfold findMostDebitTransactionMonth. rewrite Hempty. reflexivity. }
  split; [assumption|]. simpl. unfold returns_or_throws. now rewrite Hthrow.
Qed.

End Calls.

Lemma date_range_inclusive_before_strict_witness :
  (exists kept : Transaction -> bool,
      getTransactionsInDateRange "2019-01-01" "2019-01-02" scenario = filter kept scenario
      /\ forall t, kept t = true
                   <-> exists d, Date_parse (transaction_date t) = Some d
                                 /\ (1546300800000 <= d <= 1546387200000)%Z)
  /\ (forall t, In t scenario ->
                Date_parse (transaction_date t) = Some 1546300800000%Z
                \/ Date_parse (transaction_date t) = Some 1546387200000%Z ->
                In t (getTransactionsInDateRange "2019-01-01" "2019-01-02" scenario))
  /\ (exists kept : Transaction -> bool,
         getTransactionsBeforeDate "2019-01-02" scenario = filter kept scenario
         /\ forall t, kept t = true
                      <-> exists d, Date_parse (transaction_date t) = Some d
                                    /\ (d < 1546387200000)%Z).
Proof.
  apply (@date_range_inclusive_before_strict iso_utc_en scenario
           "2019-01-01" "2019-01-02" "2019-01-02" 1546300800000 1546387200000 1546387200000).
  - reflexivity.
  - reflexivity.
  - reflexivity.
  - lia.
Defined.

(** The range of the script in index.js on the scenario's store: both ends
    are kept; before the first day there is nothing. *)
Example scenario_date_filters :
  map transaction_id (getTransactionsInDateRange "2019-01-01" "2019-01-02" scenario)
  = ["1"; "2"]
  /\ map transaction_id (getTransactionsBeforeDate "2019-01-02" scenario) = ["1"]
  /\ getTransactionsBeforeDate "2019-01-01" scenario = [].
Proof. repeat split. Qed.

Lemma invalid_date_is_left_out_witness :
  In bad_date_record with_bad_date
  /\ ~ In bad_date_record
         (getTransactionsInDateRange "2019-01-01" "2019-01-02" with_bad_date)
  /\ ~ In bad_date_record (getTransactionsBeforeDate "2019-01-03" with_bad_date)
  /\ (forall d : DateObject,
         date_le (Date_parse (transaction_date bad_date_record)) d = false
         /\ date_le d (Date_parse (transaction_date bad_date_record)) = false
         /\ date_lt (Date_parse (transaction_date bad_date_record)) d = false)
  /\ snd (@invoke float binary64 iso_utc_en
            (call_getTransactionsInDateRange "2019-01-01" "2019-01-02") with_bad_date)
     = Normal (v_records (getTransactionsInDateRange "2019-01-01" "2019-01-02" with_bad_date))
  /\ snd (@invoke float binary64 iso_utc_en
            (call_getTransactionsBeforeDate "2019-01-03") with_bad_date)
     = Normal (v_records (getTransactionsBeforeDate "2019-01-03" with_bad_date))
  /\ (forall year month day,
         snd (@invoke float binary64 iso_utc_en
                (call_calculateTotalAmountByDate year month day) with_bad_date)
         = Normal (v_number (calculateTotalAmountByDate year month day with_bad_date))).
Proof.
  split.
  - right. left. reflexivity.
  - apply (@invalid_date_is_left_out float binary64 iso_utc_en with_bad_date
             bad_date_record "2019-01-01" "2019-01-02" "2019-01-03").
    reflexivity.
Defined.

Example with_bad_date_filters :
  map transaction_id (getTransactionsInDateRange "2019-01-01" "2019-01-02" with_bad_date)
  = ["1"; "3"]
  /\ map transaction_id (getTransactionsBeforeDate "2019-01-03" with_bad_date) = ["1"; "3"].
Proof. split; reflexivity. Qed.

Lemma findMostDebitTransactionMonth_throws_without_debit_witness :
  credit_only <> []
  /\ findMostDebitTransactionMonth credit_only = Throw TypeError
  /\ snd (@invoke float binary64 iso_utc_en call_findMostDebitTransactionMonth credit_only)
     = Throw TypeError.
Proof.
  split; [discriminate|].
  apply (@findMostDebitTransactionMonth_throws_without_debit float binary64 iso_utc_en
           credit_only).
  intros t [E|[]]. subst t. discriminate.
Defined.

(** ** The average *)

(** C8: [calculateAverageTransactionAmount()] is [calculateTotalAmount()]
    divided by the number of records, on every store; on the empty store
    that is 0 / 0 on binary64, which is NaN, and the call returns it
    normally. *)
Theorem average_is_total_over_count_and_NaN_when_empty :
  (forall (num : Type) (NUM : JSNumber num) (this : Store),
      calculateAverageTransactionAmount this
      = num_div (calculateTotalAmount this) (num_of_length (List.length this)))
  /\ @calculateTotalAmount float binary64 [] = PrimFloat.zero
  /\ @num_of_length float binary64 0 = PrimFloat.zero
  /\ PrimFloat.is_nan (@calculateAverageTransactionAmount float binary64 []) = true
  /\ snd (@invoke float binary64 iso_utc_en call_calculateAverageTransactionAmount [])
     = Normal (v_number PrimFloat.nan).
Proof. repeat split. Qed.

Example scenario_average :
  @calculateAverageTransactionAmount float binary64 scenario = PrimFloat.of_uint63 75
  /\ @calculateTotalAmount float binary64 scenario = PrimFloat.of_uint63 150.
Proof. split; reflexivity. Qed.

Example scenario_amount_range :
  map transaction_id
    (getTransactionsByAmountRange (PrimFloat.of_uint63 60) (PrimFloat.of_uint63 200) scenario)
  = ["1"].
Proof. reflexivity. Qed.

Example scenario_mostTransactionTypes :
  mostTransactionTypes scenario = "equal" /\ mostTransactionTypes [] = "equal".
Proof. split; reflexivity. Qed.

(** * Further properties of the class *)

(** ** Distinct types *)

Lemma Set_from_fold (arr : list string) :
  forall seen : list string,
    fold_left
      (fun seen x => if existsb (String.eqb x) seen then seen else seen ++ [x])
      arr seen
    = seen ++ filter (fun k => negb (existsb (String.eqb k) seen)) (first_seen arr).
Proof.
  induction arr as [|x arr IH]; intros seen; simpl.
  - now rewrite app_nil_r.
  - destruct (existsb (String.eqb x) seen) eqn:Hseen; simpl; rewrite IH.
    + f_equal. symmetry. apply filter_twice. intros k.
      destruct (String.eqb x k) eqn:E; simpl; [|reflexivity].
      apply String.eqb_eq in E. subst k. now rewrite Hseen.
    + rewrite <- app_assoc. simpl. do 2 f_equal. symmetry.
      apply filter_twice. intros k.
      rewrite existsb_app. simpl. rewrite orb_false_r, negb_orb.
      rewrite (String.eqb_sym k x). apply andb_comm.
Qed.

Lemma Set_from_first_seen (arr : list string) : Set_from arr = first_seen arr.
Proof.
  unfold Set_from. rewrite Set_from_fold. simpl. apply filter_all. reflexivity.
Qed.

Lemma first_seen_NoDup (keys : list string) : NoDup (first_seen keys).
Proof.
  induction keys as [|k keys IH]; simpl; constructor.
  - rewrite filter_In. intros [_ H]. now rewrite String.eqb_refl in H.
  - now apply NoDup_filter.
Qed.

Lemma first_seen_head (keys : list string) :
  forall k rest, first_seen keys = k :: rest -> exists later, keys = k :: later.
Proof.
  destruct keys as [|x keys]; simpl; intros k rest H; [discriminate|].
  injection H as H _. subst. now exists keys.
Qed.

(** X1: [getUniqueTransactionType()] lists every type that some record
    has, each once, in the order in which the types first occur in the
    store; on the empty store it is the empty array. *)
Theorem getUniqueTransactionType_distinct_in_first_seen_order (this : Store) :
  NoDup (getUniqueTransactionType this)
  /\ (forall type, In type (getUniqueTransactionType this)
                   <-> exists t, In t this /\ transaction_type t = type)
  /\ getUniqueTransactionType this = first_seen (map transaction_type this)
  /\ (getUniqueTransactionType this = [] <-> this = []).
Proof.
  unfold getUniqueTransactionType. rewrite Set_from_first_seen.
  split; [apply first_seen_NoDup|]. split; [|split; [reflexivity|]].
  - intros type. rewrite first_seen_In, in_map_iff. split.
    + intros [t [E Ht]]. exists t. auto.
    + intros [t [Ht E]]. exists t. auto.
  - destruct this as [|t this]; simpl; split; try reflexivity; discriminate.
Qed.

(** ** The types partition the store *)

Lemma filter_none (A : Type) (l : list A) : filter (fun _ => false) l = [].
Proof. induction l; simpl; auto. Qed.

Lemma filter_disjoint_union (A : Type) (f g : A -> bool) (l : list A) :
  (forall x, f x = true -> g x = true -> False) ->
  Permutation (filter f l ++ filter g l) (filter (fun x => f x || g x) l).
Proof.
  intros Hdisjoint. induction l as [|x l IH]; simpl; [constructor|].
  destruct (f x) eqn:Ef, (g x) eqn:Eg; simpl.
  - exfalso. eauto.
  - now constructor.
  - symmetry. etransitivity; [|apply Permutation_middle].
    constructor. now symmetry.
  - assumption.
Qed.

Lemma by_type_partition (l : list Transaction) (types : list string) :
  NoDup types ->
  Permutation
    (flat_map (fun type => getTransactionByType type l) types)
    (filter (fun t => existsb (String.eqb (transaction_type t)) types) l).
Proof.
  unfold getTransactionByType.
  induction types as [|type types IH]; intros Hnodup; simpl.
  - rewrite filter_none. constructor.
  - inversion Hnodup as [|? ? Hnotin Hrest]; subst.
    etransitivity; [apply Permutation_app_head, IH, Hrest|].
    apply filter_disjoint_union. intros t Ht Hin.
    apply String.eqb_eq in Ht. apply existsb_eqb_In in Hin. congruence.
Qed.

(** X2: the arrays [getTransactionByType(type)], taken over the types
    [getUniqueTransactionType()] lists, hold together exactly the records of
    the store, each as many times as the store does: nothing is left out and
    nothing is counted twice. *)
Theorem types_partition_the_store (this : Store) :
  Permutation
    (flat_map (fun type => getTransactionByType type this) (getUniqueTransactionType this))
    this
  /\ List.length
       (flat_map (fun type => getTransactionByType type this) (getUniqueTransactionType this))
     = List.length this.
Proof.
  assert (Hperm :
    Permutation
      (flat_map (fun type => getTransactionByType type this) (getUniqueTransactionType this))
      this).
  { unfold getUniqueTransactionType. rewrite Set_from_first_seen.
    etransitivity; [apply by_type_partition, first_seen_NoDup|].
    rewrite filter_all; [reflexivity|].
    intros t Ht. apply existsb_eqb_In, first_seen_In. now apply in_map. }
  split; [exact Hperm|]. now apply Permutation_length.
Qed.

(** ** Queries that select records *)


Lemma subsequence_In (A : Type) (sub full : list A) :
  subsequence sub full -> forall x, In x sub -> In x full.
Proof.
  induction 1 as [|x sub full _ IH|x sub full _ IH]; simpl; intros y Hy; auto.
  destruct Hy; auto.
Qed.

Lemma subsequence_length (A : Type) (sub full : list A) :
  subsequence sub full -> (List.length sub <= List.length full)%nat.
Proof. induction 1; simpl; lia. Qed.

Section Selections.

Context {num : Type} {NUM : JSNumber num} {DATE : JSDate}.


End Selections.

(** ** When the month queries throw *)

Lemma insert_index_In (entry : N * string) (sorted : list (N * string)) (e : N * string) :
  In e (insert_index entry sorted) <-> e = entry \/ In e sorted.
Proof.
  induction sorted as [|x sorted IH]; simpl.
  - intuition.
  - destruct (fst entry <=? fst x)%N; simpl; [intuition|].
    rewrite IH. intuition.
Qed.

Lemma index_keys_In (keys : list string) (k : string) :
  In k (map snd (index_keys keys)) <-> In k keys /\ is_array_index k = true.
Proof.
  unfold is_array_index. induction keys as [|x keys IH]; simpl; [tauto|].
  destruct (array_index x) as [n|] eqn:Ex.
  - rewrite in_map_iff. split.
    + intros [[m k'] [E Hin]]. simpl in E. subst k'.
      apply insert_index_In in Hin. destruct Hin as [Hin|Hin].
      * injection Hin as _ Hk. subst x. rewrite Ex. auto.
      * assert (H : In k (map snd (index_keys keys))) by (apply in_map_iff; now exists (m, k)).
        apply IH in H. tauto.
    + intros [[E|Hin] Hk].
      * subst x. exists (n, k). split; [reflexivity|]. apply insert_index_In. now left.
      * assert (H : In k (map snd (index_keys keys))) by (apply IH; tauto).
        apply in_map_iff in H. destruct H as [[m k'] [E H]]. simpl in E. subst k'.
        exists (m, k). split; [reflexivity|]. apply insert_index_In. now right.
  - rewrite IH. split.
    + tauto.
    + intros [[E|Hin] Hk]; [|tauto]. subst x. rewrite Ex in Hk. discriminate.
Qed.

(** [Object.keys] lists the keys of the table, and only them. *)
Lemma Object_keys_In (V : Type) (obj : JSObject V) (k : string) :
  In k (Object_keys obj) <-> In k (map fst obj).
Proof.
  unfold Object_keys. rewrite in_app_iff, index_keys_In, filter_In.
  destruct (is_array_index k); simpl; intuition congruence.
Qed.

Lemma reduce_picks_an_element (A : Type) (f : A -> A -> A) :
  (forall a b, f a b = a \/ f a b = b) ->
  forall (rest : list A) (first : A), In (fold_left f rest first) (first :: rest).
Proof.
  intros Hpick. induction rest as [|b rest IH]; intros first; simpl.
  - now left.
  - destruct (IH (f first b)) as [E|Hin]; [|auto].
    rewrite <- E. destruct (Hpick first b) as [H|H]; rewrite H; auto.
Qed.

(** The reduce over the keys of a table of counts throws exactly when no
    record was counted, and otherwise returns the key of a counted record. *)
Lemma most_counted_outcome (key : Transaction -> string) (arr : list Transaction) :
  (most_counted (count_by key arr) = Throw TypeError <-> arr = [])
  /\ (forall winner, most_counted (count_by key arr) = Normal winner ->
                     exists t, In t arr /\ key t = winner).
Proof.
  unfold most_counted.
  destruct (Object_keys (count_by key arr)) as [|first rest] eqn:Hkeys; simpl.
  - assert (Harr : arr = []).
    { destruct arr as [|t arr]; [reflexivity|]. exfalso.
      assert (Hin : In (key t) (Object_keys (count_by key (t :: arr)))).
      { apply Object_keys_In. rewrite count_by_keys. apply first_seen_In. now left. }
      rewrite Hkeys in Hin. destruct Hin. }
    split; [tauto|]. discriminate.
  - split.
    + split; [discriminate|]. intros Harr. subst arr. discriminate.
    + intros winner H. injection H as H.
      assert (Hin : In winner (Object_keys (count_by key arr))).
      { rewrite Hkeys, <- H. apply reduce_picks_an_element.
        intros a b. destruct (js_gt _ _); auto. }
      apply Object_keys_In in Hin. rewrite count_by_keys, first_seen_In, in_map_iff in Hin.
      destruct Hin as [t [E Ht]]. now exists t.
Qed.

Lemma getTransactionByType_empty_iff (type : string) (this : Store) :
  getTransactionByType type this = []
  <-> forall t, In t this -> transaction_type t <> type.
Proof.
  unfold getTransactionByType. split.
  - intros Hempty t Ht E.
    assert (Hin : In t (filter (fun t => String.eqb (transaction_type t) type) this)).
    { apply filter_In. split; [assumption|]. now apply String.eqb_eq. }
    rewrite Hempty in Hin. destruct Hin.
  - intros H. induction this as [|t this IH]; simpl; [reflexivity|].
    destruct (String.eqb (transaction_type t) type) eqn:E.
    + apply String.eqb_eq in E. exfalso. apply (H t); [now left|assumption].
    + apply IH. intros t' Ht'. apply H. now right.
Qed.

Section MonthQueries.

Context {DATE : JSDate}.

(** X4: [findMostTransactionsMonth()] throws a TypeError exactly on the
    empty store; on any other store it returns the month label of one of the
    records. *)
Theorem findMostTransactionsMonth_throws_iff_empty (this : Store) :
  (findMostTransactionsMonth this = Throw TypeError <-> this = [])
  /\ (this <> [] -> exists label, findMostTransactionsMonth this = Normal label)
  /\ (forall label, findMostTransactionsMonth this = Normal label ->
                    exists t, In t this /\ month_label t = label).
Proof.
  destruct (most_counted_outcome month_label this) as [Hthrow Hlabel].
  unfold findMostTransactionsMonth. repeat split; try apply Hthrow; [|exact Hlabel].
  intros Hne. destruct (most_counted (count_by month_label this)) as [label|[]].
  - now exists label.
  - exfalso. apply Hne. now apply Hthrow.
Qed.

(** X5: [findMostDebitTransactionMonth()] throws a TypeError exactly when
    the store has no "debit" record; otherwise it returns the month label of
    one of the "debit" records. *)
Theorem findMostDebitTransactionMonth_throws_iff_no_debit (this : Store) :
  (findMostDebitTransactionMonth this = Throw TypeError
   <-> forall t, In t this -> transaction_type t <> "debit")
  /\ ((exists t, In t this /\ transaction_type t = "debit") ->
      exists label, findMostDebitTransactionMonth this = Normal label)
  /\ (forall label, findMostDebitTransactionMonth this = Normal label ->
                    exists t, In t this /\ transaction_type t = "debit"
                              /\ month_label t = label).
Proof.
  destruct (most_counted_outcome month_label (getTransactionByType "debit" this))
    as [Hthrow Hlabel].
  pose proof (getTransactionByType_empty_iff "debit" this) as Hnone.
  unfold findMostDebitTransactionMonth. split; [|split].
  - rewrite Hthrow. exact Hnone.
  - intros [t [Ht E]].
    destruct (most_counted (count_by month_label (getTransactionByType "debit" this)))
      as [label|[]].
    + now exists label.
    + exfalso. apply (proj1 Hnone (proj1 Hthrow eq_refl) t Ht E).
  - intros label H. destruct (Hlabel label H) as [t [Ht E]].
    apply filter_In in Ht. destruct Ht as [Ht Htype].
    exists t. repeat split; auto. now apply String.eqb_eq.
Qed.

End MonthQueries.

(** ** The month with most debits *)

Lemma last_seen_wins_ties_highest (labels : list string) (winner : string) :
  last_seen_wins_ties labels winner ->
  In winner labels
  /\ forall l, In l labels -> occurrences l labels <= occurrences winner labels.
Proof.
  intros [before [after [Heq [Hb Ha]]]].
  assert (Hin : forall l, In l labels <-> In l before \/ l = winner \/ In l after).
  { intros l. rewrite <- first_seen_In, Heq, in_app_iff. simpl. intuition. }
  split; [apply Hin; auto|].
  intros l Hl. destruct (proj1 (Hin l) Hl) as [H|[H|H]].
  - now apply Hb.
  - rewrite H. lia.
  - apply Nat.lt_le_incl. now apply Ha.
Qed.

Section MonthWithMostDebits.

Context {DATE : JSDate}.

(** X6: on a store with a "debit" record, where the month labels of the
    debits are ordinary keys, [findMostDebitTransactionMonth()] returns a
    month label of the debits with the highest number of debits; records of
    other types do not count, and on a tie the label seen last among the
    debits wins. *)
Theorem findMostDebitTransactionMonth_highest_last_seen (this : Store) :
  (exists t, In t this /\ transaction_type t = "debit") ->
  (forall t, In t this -> transaction_type t = "debit" ->
             ordinary_key (month_label t) = true) ->
  exists winner,
    findMostDebitTransactionMonth this = Normal winner
    /\ In winner (map month_label (getTransactionByType "debit" this))
    /\ (forall t, In t this -> transaction_type t = "debit" ->
                  occurrences (month_label t)
                    (map month_label (getTransactionByType "debit" this))
                  <= occurrences winner
                       (map month_label (getTransactionByType "debit" this)))
    /\ last_seen_wins_ties (map month_label (getTransactionByType "debit" this)) winner.
Proof.
  intros [d [Hd Ed]] Hordinary.
  assert (Hdebit : forall t, In t (getTransactionByType "debit" this)
                             <-> In t this /\ transaction_type t = "debit").
  { intros t. unfold getTransactionByType. now rewrite filter_In, String.eqb_eq. }
  destruct (@most_counted_last_seen_wins month_label (getTransactionByType "debit" this))
    as [winner [Hres Hlast]].
  - intros Hempty. assert (Hin : In d (getTransactionByType "debit" this)) by now apply Hdebit.
    rewrite Hempty in Hin. destruct Hin.
  - intros t Ht. apply Hdebit in Ht. destruct Ht as [Ht Et].
    specialize (Hordinary t Ht Et). apply andb_true_iff in Hordinary.
    now apply negb_true_iff.
  - exists winner. split; [exact Hres|].
    destruct (last_seen_wins_ties_highest Hlast) as [Hin Hmax].
    split; [exact Hin|]. split; [|exact Hlast].
    intros t Ht Et. apply Hmax, in_map, Hdebit. auto.
Qed.

End MonthWithMostDebits.

Lemma findMostDebitTransactionMonth_highest_last_seen_witness :
  exists winner,
    findMostDebitTransactionMonth debits_and_credits = Normal winner
    /\ In winner (map month_label (getTransactionByType "debit" debits_and_credits))
    /\ (forall t, In t debits_and_credits -> transaction_type t = "debit" ->
                  occurrences (month_label t)
                    (map month_label (getTransactionByType "debit" debits_and_credits))
                  <= occurrences winner
                       (map month_label (getTransactionByType "debit" debits_and_credits)))
    /\ last_seen_wins_ties
         (map month_label (getTransactionByType "debit" debits_and_credits)) winner.
Proof.
  apply (@findMostDebitTransactionMonth_highest_last_seen iso_utc_en debits_and_credits).
  - exists (record "1" "2019-01-10" "10" "debit"). split; [now left|reflexivity].
  - intros t [E|[E|[E|[E|[]]]]] _; subst t; reflexivity.
Defined.

(** February has the most records, but its two are credits: among the
    debits January and March tie, and March, seen last, is returned. *)
Example debits_and_credits_months :
  findMostTransactionsMonth debits_and_credits = Normal "February 2019"
  /\ findMostDebitTransactionMonth debits_and_credits = Normal "March 2019".
Proof. split; reflexivity. Qed.

(** ** Which type has more records *)

Lemma occurrences_among_selected (keep : Transaction -> bool) (type : string)
  (this : list Transaction) :
  (forall t, transaction_type t = type -> keep t = true) ->
  occurrences type (map transaction_type (filter keep this))
  = occurrences type (map transaction_type this).
Proof.
  intros Hkeep. unfold occurrences.
  induction this as [|t this IH]; simpl; [reflexivity|].
  destruct (keep t) eqn:E; simpl.
  - now rewrite IH.
  - destruct (string_dec (transaction_type t) type) as [Et|Et]; [|assumption].
    rewrite (Hkeep t Et) in E. discriminate.
Qed.

(** X7: [mostTransactionTypes()] depends on the numbers of "debit" and
    "credit" records only, records of any other type changing nothing.  It
    returns "debit" exactly when there are more debits than credits AND at
    least one credit, "credit" exactly when there are more credits than
    debits and at least one debit, and "equal" in every other case. *)
Theorem mostTransactionTypes_decided_by_two_counts (this : Store) :
  (mostTransactionTypes this = "debit"
   <-> 0 < occurrences "credit" (map transaction_type this)
           < occurrences "debit" (map transaction_type this))
  /\ (mostTransactionTypes this = "credit"
      <-> 0 < occurrences "debit" (map transaction_type this)
              < occurrences "credit" (map transaction_type this))
  /\ (mostTransactionTypes this = "debit" \/ mostTransactionTypes this = "credit"
      \/ mostTransactionTypes this = "equal")
  /\ mostTransactionTypes (filter debit_or_credit this) = mostTransactionTypes this.
Proof.
  assert (Hfiltered : mostTransactionTypes (filter debit_or_credit this)
                      = mostTransactionTypes this).
  { rewrite !mostTransactionTypes_by_counts. cbv zeta.
    rewrite !occurrences_among_selected; [reflexivity| |];
      intros t E; unfold debit_or_credit; rewrite E; reflexivity. }
  split; [|split; [|split; [|exact Hfiltered]]];
    rewrite mostTransactionTypes_by_counts; cbv zeta;
    destruct (Nat.ltb_spec 0 (occurrences "credit" (map transaction_type this))),
             (Nat.ltb_spec 0 (occurrences "debit" (map transaction_type this))),
             (Nat.ltb_spec (occurrences "credit" (map transaction_type this))
                           (occurrences "debit" (map transaction_type this))),
             (Nat.ltb_spec (occurrences "debit" (map transaction_type this))
                           (occurrences "credit" (map transaction_type this)));
    simpl; try tauto; try lia;
    (split; [discriminate || (intros _; lia)|intros ?; lia]).
Qed.

(** ** Queries after [addTransaction] *)

Lemma find_after_append (A : Type) (f : A -> bool) (l : list A) (x : A) :
  find f (l ++ [x])
  = match find f l with
    | Some y => Some y
    | None => if f x then Some x else None
    end.
Proof.
  induction l as [|y l IH]; simpl; [reflexivity|].
  destruct (f y); [reflexivity|assumption].
Qed.

Section AfterAddTransaction.

Context {num : Type} {NUM : JSNumber num} {DATE : JSDate}.

(** X8: what adding a record does to the sums, in any arithmetic (on
    binary64 as well, the new amount being the last one added): the total
    becomes the old total plus the parsed amount; the debit total and the
    total for a date do the same when the record is a debit, respectively
    matches the date, and keep their value otherwise; the average becomes
    the new total over one more record. *)
Theorem sums_after_addTransaction (this : Store) (t : Transaction) :
  calculateTotalAmount (addTransaction t this)
  = num_add (calculateTotalAmount this) (parseFloat (transaction_amount t))
  /\ calculateTotalDebitAmount (addTransaction t this)
     = (if String.eqb (transaction_type t) "debit"
        then num_add (calculateTotalDebitAmount this) (parseFloat (transaction_amount t))
        else calculateTotalDebitAmount this)
  /\ (forall year month day,
         calculateTotalAmountByDate year month day (addTransaction t this)
         = if matches_date year month day t
           then num_add (calculateTotalAmountByDate year month day this)
                        (parseFloat (transaction_amount t))
           else calculateTotalAmountByDate year month day this)
  /\ calculateAverageTransactionAmount (addTransaction t this)
     = num_div (num_add (calculateTotalAmount this) (parseFloat (transaction_amount t)))
               (num_of_length (S (List.length this))).
Proof.
  assert (Hsum : forall arr, sum_amounts (arr ++ [t])
                             = num_add (sum_amounts arr) (parseFloat (transaction_amount t))).
  { intros arr. unfold sum_amounts. now rewrite fold_left_app. }
  unfold calculateAverageTransactionAmount, calculateTotalAmount, calculateTotalDebitAmount,
    calculateTotalAmountByDate, getTransactionByType, addTransaction.
  repeat split.
  - apply Hsum.
  - rewrite filter_app. simpl.
    destruct (String.eqb (transaction_type t) "debit"); [apply Hsum|now rewrite app_nil_r].
  - intros year month day. rewrite filter_app. simpl.
    destruct (matches_date year month day t); [apply Hsum|now rewrite app_nil_r].
  - rewrite Hsum, length_app. simpl. now rewrite Nat.add_1_r.
Qed.

(** X9: what adding a record does to the other queries: each selection
    gains the record at its end when the record passes the selection's test
    and is unchanged otherwise; the descriptions gain the record's
    description; the distinct types gain the record's type when it is new. *)
Theorem queries_after_addTransaction (this : Store) (t : Transaction) :
  (forall type,
      getTransactionByType type (addTransaction t this)
      = getTransactionByType type this
        ++ (if String.eqb (transaction_type t) type then [t] else []))
  /\ (forall merchantName,
         getTransactionsByMerchant merchantName (addTransaction t this)
         = getTransactionsByMerchant merchantName this
           ++ (if String.eqb (merchant_name t) merchantName then [t] else []))
  /\ (forall minAmount maxAmount,
         getTransactionsByAmountRange minAmount maxAmount (addTransaction t this)
         = getTransactionsByAmountRange minAmount maxAmount this
           ++ (if num_le minAmount (ToNumber (transaction_amount t))
                  && num_le (ToNumber (transaction_amount t)) maxAmount
               then [t] else []))
  /\ (forall startDate endDate,
         getTransactionsInDateRange startDate endDate (addTransaction t this)
         = getTransactionsInDateRange startDate endDate this
           ++ (if date_le (Date_parse startDate) (Date_parse (transaction_date t))
                  && date_le (Date_parse (transaction_date t)) (Date_parse endDate)
               then [t] else []))
  /\ (forall date,
         getTransactionsBeforeDate date (addTransaction t this)
         = getTransactionsBeforeDate date this
           ++ (if date_lt (Date_parse (transaction_date t)) (Date_parse date)
               then [t] else []))
  /\ mapTransactionDescriptions (addTransaction t this)
     = mapTransactionDescriptions this ++ [transaction_description t]
  /\ getUniqueTransactionType (addTransaction t this)
     = getUniqueTransactionType this
       ++ (if existsb (String.eqb (transaction_type t)) (getUniqueTransactionType this)
           then [] else [transaction_type t]).
Proof.
  unfold getTransactionByType, getTransactionsByMerchant, getTransactionsByAmountRange,
    getTransactionsInDateRange, getTransactionsBeforeDate, mapTransactionDescriptions,
    getUniqueTransactionType, addTransaction.
  do 5 (split; [intros; rewrite filter_app; simpl;
                match goal with |- context [if ?c then _ else _] => destruct c end;
                reflexivity|]).
  split.
  - now rewrite map_app.
  - unfold Set_from. rewrite map_app, fold_left_app. simpl.
    destruct (existsb _ _); [now rewrite app_nil_r|reflexivity].
Qed.

(** X10: adding a record never changes which record an identifier finds:
    a lookup that found a record finds the same one, and the added record
    is found only under its own identifier and only when no stored record
    had it. *)
Theorem findTransactionById_after_addTransaction
  (this : Store) (t : Transaction) (id : string) :
  findTransactionById id (addTransaction t this)
  = match findTransactionById id this with
    | Some found => Some found
    | None => if String.eqb (transaction_id t) id then Some t else None
    end.
Proof.
  unfold findTransactionById, addTransaction. apply find_after_append.
Qed.

End AfterAddTransaction.

(** ** Edges of the date queries *)

Lemma filter_rejects_all (A : Type) (f : A -> bool) (l : list A) :
  (forall x, In x l -> f x = false) -> filter f l = [].
Proof.
  induction l as [|x l IH]; simpl; intros H; [reflexivity|].
  rewrite (H x) by now left. apply IH. intros y Hy. apply H. now right.
Qed.

Section DateEdges.

Context {num : Type} {NUM : JSNumber num} {DATE : JSDate}.

(** X11: a bound that does not parse empties the result, without an
    error: [getTransactionsInDateRange] returns [[]] when either bound is an
    invalid date, and also when the start is after the end;
    [getTransactionsBeforeDate] returns [[]] when its date is invalid. *)
Theorem date_queries_with_bad_bounds (this : Store) :
  (forall startDate endDate,
      Date_parse startDate = None \/ Date_parse endDate = None ->
      getTransactionsInDateRange startDate endDate this = [])
  /\ (forall startDate endDate s e,
         Date_parse startDate = Some s -> Date_parse endDate = Some e -> (e < s)%Z ->
         getTransactionsInDateRange startDate endDate this = [])
  /\ (forall date, Date_parse date = None -> getTransactionsBeforeDate date this = []).
Proof.
  unfold getTransactionsInDateRange, getTransactionsBeforeDate. repeat split.
  - intros startDate endDate [H|H]; rewrite H; apply filter_rejects_all; intros t _.
    + reflexivity.
    + destruct (Date_parse (transaction_date t)); apply andb_false_r.
  - intros startDate endDate s e Hs He Hlt. rewrite Hs, He.
    apply filter_rejects_all. intros t _.
    destruct (Date_parse (transaction_date t)) as [d|]; simpl; [|reflexivity].
    apply andb_false_iff. rewrite !Z.leb_gt. lia.
  - intros date H. rewrite H. apply filter_rejects_all. intros t _.
    destruct (Date_parse (transaction_date t)); reflexivity.
Qed.

Lemma matches_date_no_component (year month day : option Z) (t : Transaction) :
  js_not year = true -> js_not month = true -> js_not day = true ->
  matches_date year month day t = true.
Proof.
  intros Hy Hm Hd. unfold matches_date. now rewrite Hy, Hm, Hd.
Qed.

Lemma matches_date_needs_valid_date (year month day : option Z) (t : Transaction) :
  js_not year && js_not month && js_not day = false ->
  matches_date year month day t = true -> has_valid_date t = true.
Proof.
  unfold matches_date, has_valid_date, getFullYear, getMonth, getDate.
  destruct (Date_parse (transaction_date t)); [reflexivity|]. simpl.
  destruct (js_not year), (js_not month), (js_not day), year, month, day;
    simpl; congruence.
Qed.

(** X12: with no component supplied (each omitted, or 0),
    [calculateTotalAmountByDate] is [calculateTotalAmount]: every record is
    added, those with an invalid date too.  As soon as one component is
    supplied, the records with an invalid date add nothing: the result is
    the one on the store without them. *)
Theorem calculateTotalAmountByDate_wildcards_and_bad_dates
  (year month day : option Z) (this : Store) :
  (js_not year = true -> js_not month = true -> js_not day = true ->
   calculateTotalAmountByDate year month day this = calculateTotalAmount this)
  /\ (js_not year && js_not month && js_not day = false ->
      calculateTotalAmountByDate year month day this
      = calculateTotalAmountByDate year month day (filter has_valid_date this)).
Proof.
  unfold calculateTotalAmountByDate, calculateTotalAmount. split.
  - intros Hy Hm Hd. rewrite filter_all; [reflexivity|].
    intros t _. now apply matches_date_no_component.
  - intros Hsupplied. f_equal. symmetry. apply filter_twice. intros t.
    destruct (matches_date year month day t) eqn:E; [|apply andb_false_r].
    now rewrite (matches_date_needs_valid_date _ _ _ _ Hsupplied E).
Qed.

(** X13: for valid dates [s] and [e], no record is both before [s] and in
    the range from [s] to [e], and every record of the store whose date is
    valid and at most [e] is in one of the two results. *)
Theorem before_and_range_split
  (this : Store) (startDate endDate : string) (s e : Z) :
  Date_parse startDate = Some s ->
  Date_parse endDate = Some e ->
  (forall t, In t (getTransactionsBeforeDate startDate this) ->
             ~ In t (getTransactionsInDateRange startDate endDate this))
  /\ (forall t d, In t this -> Date_parse (transaction_date t) = Some d -> (d <= e)%Z ->
                  In t (getTransactionsBeforeDate startDate this)
                  \/ In t (getTransactionsInDateRange startDate endDate this))
  /\ (forall t, In t (getTransactionsInDateRange startDate endDate this) ->
                In t (getTransactionsBeforeDate endDate this)
                \/ Date_parse (transaction_date t) = Some e).
Proof.
  intros Hs He. unfold getTransactionsInDateRange, getTransactionsBeforeDate.
  rewrite Hs, He. repeat split.
  - intros t Hbefore Hrange. apply filter_In in Hbefore, Hrange.
    destruct Hbefore as [_ Hb], Hrange as [_ Hr].
    destruct (Date_parse (transaction_date t)) as [d|]; simpl in *; [|discriminate].
    apply andb_true_iff in Hr. destruct Hr as [Hr _].
    apply Z.ltb_lt in Hb. apply Z.leb_le in Hr. lia.
  - intros t d Ht Hd Hle. rewrite !filter_In, Hd. simpl.
    destruct (Z.ltb_spec d s) as [Hlt|Hge]; [now left|right].
    split; [assumption|]. apply andb_true_iff. rewrite !Z.leb_le. lia.
  - intros t Hrange. apply filter_In in Hrange. destruct Hrange as [Ht Hr].
    rewrite filter_In.
    destruct (Date_parse (transaction_date t)) as [d|]; simpl in *; [|discriminate].
    apply andb_true_iff in Hr. destruct Hr as [_ Hr]. apply Z.leb_le in Hr.
    destruct (Z.eq_dec d e) as [E|E]; [right; now subst|left].
    split; [assumption|]. apply Z.ltb_lt. lia.
Qed.

End DateEdges.

Lemma before_and_range_split_witness :
  (forall t, In t (getTransactionsBeforeDate "2019-01-02" with_bad_date) ->
             ~ In t (getTransactionsInDateRange "2019-01-02" "2019-01-03" with_bad_date))
  /\ (forall t d, In t with_bad_date -> Date_parse (transaction_date t) = Some d ->
                  (d <= 1546473600000)%Z ->
                  In t (getTransactionsBeforeDate "2019-01-02" with_bad_date)
                  \/ In t (getTransactionsInDateRange "2019-01-02" "2019-01-03" with_bad_date))
  /\ (forall t, In t (getTransactionsInDateRange "2019-01-02" "2019-01-03" with_bad_date) ->
                In t (getTransactionsBeforeDate "2019-01-03" with_bad_date)
                \/ Date_parse (transaction_date t) = Some 1546473600000%Z).
Proof.
  apply (@before_and_range_split iso_utc_en with_bad_date
           "2019-01-02" "2019-01-03" 1546387200000 1546473600000); reflexivity.
Defined.

(** On the store with an unparseable date: a query with a bound that does
    not parse is empty; the sum with no component counts the record with the
    bad date (100 + 50 + 25), the sum for the year 2019 does not. *)
Example with_bad_date_edges :
  getTransactionsInDateRange "2019-01-01" "someday" with_bad_date = []
  /\ getTransactionsInDateRange "2019-01-02" "2019-01-01" with_bad_date = []
  /\ getTransactionsBeforeDate "" with_bad_date = []
  /\ calculateTotalAmountByDate None None None with_bad_date = PrimFloat.of_uint63 175
  /\ calculateTotalAmountByDate (Some 0%Z) None (Some 0%Z) with_bad_date
     = PrimFloat.of_uint63 175
  /\ calculateTotalAmountByDate (Some 2019%Z) None None with_bad_date
     = PrimFloat.of_uint63 125.
Proof. repeat split. Qed.

(** ** Amounts that are not numbers *)

Lemma SFcompare_same (f : spec_float) : f <> S754_nan -> SFcompare f f = Some Eq.
Proof.
  destruct f as [s|s| |s m e]; simpl; intros H; try reflexivity; try congruence.
  - destruct s; reflexivity.
  - rewrite Z.compare_refl, Pos.compare_cont_refl. destruct s; reflexivity.
Qed.

Lemma is_nan_Prim2SF (x : float) :
  PrimFloat.is_nan x = true <-> Prim2SF x = S754_nan.
Proof.
  unfold PrimFloat.is_nan. rewrite FloatAxioms.eqb_spec. unfold SFeqb. split.
  - intros H. destruct (Prim2SF x) eqn:E; try reflexivity; exfalso;
      rewrite SFcompare_same in H by discriminate; discriminate.
  - intros H. rewrite H. reflexivity.
Qed.

(** [<=] with NaN on either side is false. *)
Lemma leb_NaN (x y : float) :
  PrimFloat.is_nan x = true -> PrimFloat.leb x y = false /\ PrimFloat.leb y x = false.
Proof.
  intros H. apply is_nan_Prim2SF in H. rewrite !FloatAxioms.leb_spec, H. unfold SFleb. split.
  - reflexivity.
  - destruct (Prim2SF y); reflexivity.
Qed.

(** [x <= x] for every number but NaN. *)
Lemma leb_same (x : float) : PrimFloat.is_nan x = false -> PrimFloat.leb x x = true.
Proof.
  intros H. rewrite FloatAxioms.leb_spec. unfold SFleb. rewrite SFcompare_same; [reflexivity|].
  intros E. apply is_nan_Prim2SF in E. congruence.
Qed.

(** X14: on binary64, whatever the coercion of a string to a number
    gives, [getTransactionsByAmountRange(min, max)] never returns a record
    whose amount coerces to NaN, returns [[]] when [min] or [max] is NaN,
    and, when [min <= max], keeps the records whose amount coerces to
    exactly [min] or exactly [max]. *)
Theorem getTransactionsByAmountRange_NaN_and_ends
  (parse coerce : string -> float) (this : Store) (minAmount maxAmount : float) :
  (forall t, PrimFloat.is_nan (coerce (transaction_amount t)) = true ->
             ~ In t (@getTransactionsByAmountRange float (binary64_with parse coerce)
                       minAmount maxAmount this))
  /\ (PrimFloat.is_nan minAmount = true \/ PrimFloat.is_nan maxAmount = true ->
      @getTransactionsByAmountRange float (binary64_with parse coerce)
        minAmount maxAmount this = [])
  /\ (forall t, In t this -> PrimFloat.leb minAmount maxAmount = true ->
                coerce (transaction_amount t) = minAmount
                \/ coerce (transaction_amount t) = maxAmount ->
                In t (@getTransactionsByAmountRange float (binary64_with parse coerce)
                        minAmount maxAmount this)).
Proof.
  unfold getTransactionsByAmountRange. cbn [num_le ToNumber binary64_with].
  split; [|split].
  - intros t Hnan Hin. apply filter_In in Hin. destruct Hin as [_ H].
    destruct (leb_NaN (coerce (transaction_amount t)) minAmount Hnan) as [_ H1].
    rewrite H1 in H. discriminate.
  - intros Hnan. apply filter_rejects_all. intros t _. apply andb_false_iff.
    destruct Hnan as [Hnan|Hnan].
    + left. apply (leb_NaN minAmount _ Hnan).
    + right. apply (leb_NaN maxAmount _ Hnan).
  - intros t Ht Hle Hend. apply filter_In. split; [assumption|].
    assert (Hmin : PrimFloat.is_nan minAmount = false).
    { destruct (PrimFloat.is_nan minAmount) eqn:E; [|reflexivity].
      destruct (leb_NaN minAmount maxAmount E) as [H _]. congruence. }
    assert (Hmax : PrimFloat.is_nan maxAmount = false).
    { destruct (PrimFloat.is_nan maxAmount) eqn:E; [|reflexivity].
      destruct (leb_NaN maxAmount minAmount E) as [_ H]. congruence. }
    apply andb_true_iff. destruct Hend as [E|E]; rewrite E.
    + split; [now apply leb_same|assumption].
    + split; [assumption|now apply leb_same].
Qed.

(** With the reference readers: an amount written with an exponent is a
    number, 100, and is in the range from 60 to 200. *)
Example amount_written_with_exponent :
  map transaction_id
    (@getTransactionsByAmountRange float binary64
       (PrimFloat.of_uint63 60) (PrimFloat.of_uint63 200)
       [record "1" "2019-01-01" "1e2" "debit"; record "2" "2019-01-01" "0x10" "debit"])
  = ["1"]
  /\ @calculateTotalAmount float binary64 [record "1" "2019-01-01" "1e2" "debit"]
     = PrimFloat.of_uint63 100.
Proof. split; reflexivity. Qed.
(** An amount with text after the number counts in the total, where
    [parseFloat] reads its head, and is in no amount range, where the whole
    string is coerced. *)
Example amount_with_trailing_text :
  @calculateTotalAmount float binary64 [record "1" "2019-01-01" "100 USD" "debit"]
  = PrimFloat.of_uint63 100
  /\ @getTransactionsByAmountRange float binary64
       (PrimFloat.of_uint63 0) (PrimFloat.of_uint63 1000)
       [record "1" "2019-01-01" "100 USD" "debit"]
     = [].
Proof. split; reflexivity. Qed.

(** ** The script *)

Section Script.

Context {DATE : JSDate}.

(** X15: the script at the end of the file runs to its end exactly when
    the loaded array holds a "debit" record; it then leaves the array with
    [newTransaction] appended, and the last value it logs is that array.
    When the array holds no debit, the empty array included, the script
    stops on a TypeError at one of the two month queries, before
    [addTransaction] is reached: the array is left as loaded. *)
Theorem script_completes_iff_debit (transactions : list Transaction) :
  ((exists t, In t transactions /\ transaction_type t = "debit") ->
   exists log,
     script transactions = (transactions ++ [newTransaction], Normal log)
     /\ List.length log = 18
     /\ nth_error log 16 = Some v_undefined
     /\ nth_error log 17 = Some (v_records (transactions ++ [newTransaction])))
  /\ ((forall t, In t transactions -> transaction_type t <> "debit") ->
      script transactions = (transactions, Throw TypeError)).
Proof.
  unfold script, script_calls, constructor. split.
  - intros [d [Hd Ed]].
    destruct (findMostTransactionsMonth transactions) as [month|[]] eqn:Hmonth.
    2:{ apply (most_counted_outcome month_label transactions) in Hmonth.
        subst transactions. destruct Hd. }
    destruct (findMostDebitTransactionMonth transactions) as [debit_month|[]] eqn:Hdebit.
    2:{ apply (most_counted_outcome month_label) in Hdebit.
        exfalso. apply (proj1 (getTransactionByType_empty_iff "debit" transactions) Hdebit d);
          assumption. }
    cbn [run_logging invoke returns returns_or_throws app].
    rewrite Hmonth. cbn [run_logging invoke returns returns_or_throws app].
    rewrite Hdebit. cbn [run_logging invoke returns returns_or_throws app].
    eexists. split; [reflexivity|]. repeat split.
  - intros Hnone.
    assert (Hdebit : findMostDebitTransactionMonth transactions = Throw TypeError).
    { apply (most_counted_outcome month_label).
      now apply getTransactionByType_empty_iff. }
    cbn [run_logging invoke returns returns_or_throws app].
    destruct (findMostTransactionsMonth transactions) as [month|[]];
      cbn [run_logging invoke returns returns_or_throws app]; [|reflexivity].
    rewrite Hdebit. reflexivity.
Qed.

End Script.

(** ** The table the counting reduce builds *)

Lemma table_from_keys (obj : JSObject nat) (v : string -> nat) :
  NoDup (map fst obj) ->
  (forall k, In k (map fst obj) -> obj_get obj k = Some (v k)) ->
  obj = map (fun k => (k, v k)) (map fst obj).
Proof.
  induction obj as [|[k w] rest IH]; simpl; intros Hnodup Hget; [reflexivity|].
  inversion Hnodup as [|? ? Hnotin Hrest]; subst.
  pose proof (Hget k (or_introl eq_refl)) as Hk.
  rewrite String.eqb_refl in Hk. injection Hk as Hk. subst w.
  f_equal. apply IH; [assumption|].
  intros k' Hk'. specialize (Hget k' (or_intror Hk')).
  destruct (String.eqb k k') eqn:E; [|assumption].
  apply String.eqb_eq in E. subst k'. contradiction.
Qed.

(** X16: on records whose keys are ordinary property keys (no array
    index, no name inherited from [Object.prototype]), the reduce
    [acc[key] = (acc[key] || 0) + 1] from [{}], which the two month queries
    and [mostTransactionTypes] share, builds the table with one entry for
    each distinct key, created in the order in which the keys first occur,
    holding the number of records with that key, which is at least 1; a key
    that is not an inherited name and that no record has reads
    [undefined]. *)
Theorem count_by_table (key : Transaction -> string) (arr : list Transaction) :
  (forall t, In t arr -> ordinary_key (key t) = true) ->
  count_by key arr
  = map (fun k => (k, occurrences k (map key arr))) (first_seen (map key arr))
  /\ (forall k n, obj_get (count_by key arr) k = Some n ->
                  (1 <= n)%nat /\ n = occurrences k (map key arr)
                  /\ ordinary_key k = true
                  /\ exists t, In t arr /\ key t = k)
  /\ (forall k, is_inherited_name k = false ->
                (obj_get (count_by key arr) k = None
                 <-> forall t, In t arr -> key t <> k)).
Proof.
  intros Hordinary. split; [|split].
  - rewrite <- count_by_keys. apply table_from_keys.
    + rewrite count_by_keys. apply first_seen_NoDup.
    + intros k Hk. rewrite count_by_keys, first_seen_In in Hk.
      rewrite count_by_get. apply (count_occ_In string_dec) in Hk.
      unfold occurrences. destruct (count_occ string_dec (map key arr) k); [lia|reflexivity].
  - intros k n H. rewrite count_by_get in H.
    destruct (occurrences k (map key arr)) as [|m] eqn:E; [discriminate|].
    injection H as H. subst n.
    assert (Hin : In k (map key arr)).
    { apply (count_occ_In string_dec). unfold occurrences in E. rewrite E. lia. }
    apply in_map_iff in Hin. destruct Hin as [t [Et Ht]].
    repeat split; [lia| |now exists t].
    rewrite <- Et. now apply Hordinary.
  - intros k _. rewrite count_by_get. unfold occurrences. split.
    + intros H t Ht E.
      assert (Hin : In k (map key arr)) by (rewrite <- E; now apply in_map).
      apply (count_occ_In string_dec) in Hin.
      destruct (count_occ string_dec (map key arr) k); [lia|discriminate].
    + intros H. destruct (count_occ string_dec (map key arr) k) eqn:E; [reflexivity|].
      exfalso.
      assert (Hin : In k (map key arr)) by (apply (count_occ_In string_dec); lia).
      apply in_map_iff in Hin. destruct Hin as [t [Et Ht]]. now apply (H t).
Qed.

Lemma count_by_table_witness :
  count_by transaction_type debits_and_credits
  = map (fun k => (k, occurrences k (map transaction_type debits_and_credits)))
        (first_seen (map transaction_type debits_and_credits))
  /\ (forall k n, obj_get (count_by transaction_type debits_and_credits) k = Some n ->
                  (1 <= n)%nat
                  /\ n = occurrences k (map transaction_type debits_and_credits)
                  /\ ordinary_key k = true
                  /\ exists t, In t debits_and_credits /\ transaction_type t = k)
  /\ (forall k, is_inherited_name k = false ->
                (obj_get (count_by transaction_type debits_and_credits) k = None
                 <-> forall t, In t debits_and_credits -> transaction_type t <> k)).
Proof.
  apply (@count_by_table transaction_type debits_and_credits).
  intros t [E|[E|[E|[E|[]]]]]; subst t; reflexivity.
Defined.

(** The table of types of that store: the types in order of first
    occurrence, two records each. *)
Example debits_and_credits_table :
  count_by transaction_type debits_and_credits = [("debit", 2); ("credit", 2)].
Proof. reflexivity. Qed.

(** ** Totals and the order of the records *)

Lemma filter_Permutation (keep : Transaction -> bool) (a b : list Transaction) :
  Permutation a b -> Permutation (filter keep a) (filter keep b).
Proof.
  induction 1 as [|x a b _ IH|x y a|a b c _ IHab _ IHbc]; simpl.
  - constructor.
  - destruct (keep x); [now constructor|assumption].
  - destruct (keep x), (keep y); try reflexivity. constructor.
  - etransitivity; eassumption.
Qed.

Lemma sum_units_Permutation (units : Transaction -> Z) (a b : list Transaction) :
  Permutation a b ->
  sum_units units a = sum_units units b
  /\ total_magnitude units a = total_magnitude units b.
Proof.
  induction 1 as [|x a b _ IH|x y a|a b c _ IHab _ IHbc]; simpl.
  - split; reflexivity.
  - destruct IH as [H1 H2]. rewrite H1, H2. split; reflexivity.
  - split; lia.
  - destruct IHab, IHbc. split; congruence.
Qed.

(** X17: on binary64, whatever [parseFloat] reads, for a store whose
    amounts parse to whole numbers with absolute values summing to less
    than 2^53, [calculateTotalAmount()] and [calculateTotalDebitAmount()]
    do not depend on the order of the records: a store with the same
    records in another order gives the same two totals. *)
Theorem totals_do_not_depend_on_order
  (parse coerce : string -> float) (units : Transaction -> Z) (this other : Store) :
  Permutation this other ->
  (forall t, In t this -> parse (transaction_amount t) = float_of_Z (units t)) ->
  (total_magnitude units this < 2 ^ 53)%Z ->
  @calculateTotalAmount float (binary64_with parse coerce) this
  = @calculateTotalAmount float (binary64_with parse coerce) other
  /\ @calculateTotalDebitAmount float (binary64_with parse coerce) this
     = @calculateTotalDebitAmount float (binary64_with parse coerce) other.
Proof.
  intros Hperm Hwhole Hbound.
  assert (Hwhole' : forall t, In t other ->
                              parse (transaction_amount t) = float_of_Z (units t)).
  { intros t Ht. apply Hwhole. apply Permutation_in with (l := other); [|assumption].
    now symmetry. }
  destruct (sum_units_Permutation units Hperm) as [Hsum Hmag].
  assert (Hbound' : (total_magnitude units other < 2 ^ 53)%Z) by (rewrite <- Hmag; assumption).
  unfold calculateTotalAmount, calculateTotalDebitAmount, getTransactionByType.
  rewrite (sum_amounts_whole parse coerce units this Hwhole Hbound).
  rewrite (sum_amounts_whole parse coerce units other Hwhole' Hbound').
  rewrite (sum_amounts_whole_selected parse coerce units _ this Hwhole Hbound).
  rewrite (sum_amounts_whole_selected parse coerce units _ other Hwhole' Hbound').
  split; [now rewrite Hsum|].
  apply (f_equal float_of_Z).
  apply (sum_units_Permutation units).
  now apply filter_Permutation.
Qed.

Lemma totals_do_not_depend_on_order_witness :
  @calculateTotalAmount float binary64 scenario
  = @calculateTotalAmount float binary64 (rev scenario)
  /\ @calculateTotalDebitAmount float binary64 scenario
     = @calculateTotalDebitAmount float binary64 (rev scenario).
Proof.
  apply (@totals_do_not_depend_on_order float_parseFloat float_ToNumber scenario_units
           scenario (rev scenario)).
  - apply Permutation_rev.
  - intros t [E|[E|[]]]; subst t; reflexivity.
  - reflexivity.
Defined.

(** With amounts that are not whole numbers the order shows:
    0.1 + 0.2 + 0.3 is 0.6000000000000001, 0.3 + 0.2 + 0.1 is 0.6. *)
Example total_depends_on_order_in_binary64 :
  @calculateTotalAmount float binary64 three_amounts = 0x1.3333333333334p-1%float
  /\ @calculateTotalAmount float binary64 (rev three_amounts) = 0x1.3333333333333p-1%float.
Proof. split; reflexivity. Qed.

(** ** Wider bounds *)

Lemma filter_weaker_subsequence (A : Type) (f g : A -> bool) (l : list A) :
  (forall x, f x = true -> g x = true) -> subsequence (filter f l) (filter g l).
Proof.
  intros Himp. induction l as [|x l IH]; simpl; [constructor|].
  destruct (f x) eqn:Ef.
  - rewrite (Himp x Ef). now constructor.
  - destruct (g x); [now constructor|assumption].
Qed.

Section WiderBounds.

Context {DATE : JSDate}.

(** X18: moving valid bounds apart only adds records: the range from [s]
    to [e] is a subsequence of the range from an earlier [s'] to a later
    [e'], and the records before [e] are a subsequence of the records before
    a later [e']. *)
Theorem wider_bounds_keep_records
  (this : Store) (startDate endDate earlier later : string) (s e s' e' : Z) :
  Date_parse startDate = Some s ->
  Date_parse endDate = Some e ->
  Date_parse earlier = Some s' ->
  Date_parse later = Some e' ->
  (s' <= s)%Z ->
  (e <= e')%Z ->
  subsequence (getTransactionsInDateRange startDate endDate this)
              (getTransactionsInDateRange earlier later this)
  /\ subsequence (getTransactionsBeforeDate endDate this)
                 (getTransactionsBeforeDate later this).
Proof.
  intros Hs He Hs' He' Hstart Hend.
  unfold getTransactionsInDateRange, getTransactionsBeforeDate.
  rewrite Hs, He, Hs', He'. split; apply filter_weaker_subsequence; intros t;
    destruct (Date_parse (transaction_date t)) as [d|]; simpl; try discriminate.
  - rewrite !andb_true_iff, !Z.leb_le. lia.
  - rewrite !Z.ltb_lt. lia.
Qed.

End WiderBounds.

Lemma wider_bounds_keep_records_witness :
  subsequence (getTransactionsInDateRange "2019-01-02" "2019-01-02" with_bad_date)
              (getTransactionsInDateRange "2019-01-01" "2019-01-03" with_bad_date)
  /\ subsequence (getTransactionsBeforeDate "2019-01-02" with_bad_date)
                 (getTransactionsBeforeDate "2019-01-03" with_bad_date).
Proof.
  apply (@wider_bounds_keep_records iso_utc_en with_bad_date
           "2019-01-02" "2019-01-02" "2019-01-01" "2019-01-03"
           1546387200000 1546387200000 1546300800000 1546473600000);
    try reflexivity; lia.
Defined.
